(** * M800 keyway cutting cycle (grblHAL plugin): model and verification

    Two variants of the plugin live in the repository:

    - [Internal]: [keyway/keyway_plugin.c], the internal keyway cycle with sag
      compensation ([M800 D Q S P R [L] [H]], feed from the active F);
    - [Legacy]: the first release of the plugin, a longitudinal keyway cycle
      without compensation ([M800 D L P R F [N] [H]]), which plunges toward
      negative X.

    Both are embedded as the C code is written.  A handler runs in a small
    monad that threads its mutable locals (the [target] buffer, the depth
    accumulator) and collects, in program order, what it sends to the
    grblHAL core: [mc_line], [protocol_buffer_synchronize],
    [hal.stream.write], the debug lines and [report_message].  The waypoint
    sequence of a cycle is the list of its [mc_line] calls.

    Numbers.  The C type [float] is idealised as a real number ([R]): no
    rounding, no NaN, no infinities; [int] is idealised as [Z] (no overflow).
    [sqrtf], [ceilf], [fabsf] and the float-to-int cast are the corresponding
    real functions.  Every statement below is a statement about this
    idealised arithmetic.

    Layout: the models and all definitions come first, then the lemmas, the
    claims [C1]..[C10], two complete runs, and further properties of the
    handlers [X1]..[X14]. *)

From Stdlib Require Import Reals Lra Lia ZArith List Ascii String Bool.
Import ListNotations.
Open Scope R_scope.

(* ======================================================================= *)
(** ** Float and integer primitives of <math.h> and of the C language      *)
(* ======================================================================= *)

(** [ceilf]: the least integer not below [x], as a float. *)
Definition ceilf (x : R) : R := IZR (- Int_part (- x)).

(** [fabsf]. *)
Definition fabsf (x : R) : R := Rabs x.

(** [sqrtf]. *)
Definition sqrtf (x : R) : R := sqrt x.

(** The cast [(int)x] of a float: truncation toward zero. *)
Definition int_of_float (x : R) : Z :=
  if Rle_dec 0 x then Int_part x else (- Int_part (- x))%Z.

(** C comparisons on floats, as booleans. *)
Definition fle (x y : R) : bool := if Rle_dec x y then true else false.
Definition flt (x y : R) : bool := if Rlt_dec x y then true else false.
Definition fgt (x y : R) : bool := flt y x.
Definition feq (x y : R) : bool := if Req_dec_T x y then true else false.
Definition fne (x y : R) : bool := negb (feq x y).

(* ======================================================================= *)
(** ** The part of the grblHAL core interface the plugin uses              *)
(* ======================================================================= *)

(** [status_code_t], restricted to the codes the handlers return; a previous
    handler in the chain may return any other code. *)
Inductive status_code_t : Type :=
| Status_OK
| Status_InvalidStatement
| Status_Unhandled
| Status_Other (code : Z).

(** [user_mcode_type_t]. *)
Inductive user_mcode_type_t : Type :=
| UserMCode_Unsupported
| UserMCode_NoValueWords
| UserMCode_OtherType (code : Z).

(** Word flags of a parsed block ([gc_block->words]); only the words the
    two variants touch. *)
Record parameter_words_t : Type := mkWords {
  w_d : bool; w_f : bool; w_h : bool; w_l : bool; w_n : bool;
  w_p : bool; w_q : bool; w_r : bool; w_s : bool
}.

(** Word values of a parsed block ([gc_block->values]).  The structure is
    declared in [grbl/gcode.h] of the grblHAL core, which is not part of the
    repository: the words [d], [f], [p], [q], [r], [s] are floats there, [l]
    and [n] are integers.  [h] is only ever compared with [0.0f] and [1.0f]
    and is kept as a real. *)
Record gc_values_t : Type := mkValues {
  v_d : R; v_f : R; v_h : R; v_l : Z; v_n : Z;
  v_p : R; v_q : R; v_r : R; v_s : R
}.

(** [parser_block_t]. *)
Record parser_block_t : Type := mkBlock {
  user_mcode : Z;
  words : parameter_words_t;
  values : gc_values_t
}.

Definition set_words (b : parser_block_t) (w : parameter_words_t) : parser_block_t :=
  {| user_mcode := user_mcode b; words := w; values := values b |}.

(** [plan_line_data_t], restricted to the fields the plugin sets.  (The
    legacy variant also sets [plugin_force_rapid], a field added by its
    planner patch; it always carries the value of [rapid_motion].) *)
Record plan_line_data_t : Type := mkPlan {
  rapid_motion : bool;
  feed_rate : R
}.

(** [plan_data_init]: everything cleared. *)
Definition plan_data_init : plan_line_data_t :=
  {| rapid_motion := false; feed_rate := 0 |}.

(** The machine state the handlers read: [sys.position] (in steps),
    [settings.axis[..].steps_per_mm], [gc_state.feed_rate],
    [gc_state.position], and what
    [memcpy(target, sys.position, sizeof(target))] leaves in the X and Z
    entries of the float buffer [target] (the bytes of the step counters). *)
Record machine_t : Type := mkMachine {
  sys_position_X : Z;
  sys_position_Z : Z;
  steps_per_mm_X : R;
  steps_per_mm_Z : R;
  gc_state_feed_rate : R;
  gc_state_position_X : R;
  gc_state_position_Z : R;
  memcpy_position_X : R;
  memcpy_position_Z : R
}.

(** What a handler sends to the core, in program order. *)
Inductive event : Type :=
| BufferSynchronize                                (* protocol_buffer_synchronize() *)
| StreamWrite (s : string)                         (* hal.stream.write("...") *)
| DebugLog (tag : string) (args : list R)          (* snprintf(dbg, ...) + write *)
| ReportMessage (s : string)                       (* report_message(.., Message_Warning) *)
| McLine (x z : R) (pl : plan_line_data_t)         (* mc_line(target, &pl) *)
| GcPositionAssign (x z : Z).                      (* gc_state.position[..] = sys.position[..] *)

(** The [target] buffer, X and Z entries (the other axes keep what [memcpy]
    put there and are never written). *)
Record target_t : Type := mkTarget { X_AXIS : R; Z_AXIS : R }.

(** The mutable locals of a handler run: the [target] buffer and, in the
    legacy variant, the accumulator [current_depth]. *)
Record locals_t : Type := mkLocals { target : target_t; current_depth : R }.

(* ======================================================================= *)
(** ** The handler monad: mutable locals and the emitted events            *)
(* ======================================================================= *)

Definition cycle (A : Type) : Type := locals_t -> A * locals_t * list event.

Definition ret {A : Type} (a : A) : cycle A := fun st => (a, st, []).

Definition bind {A B : Type} (c : cycle A) (k : A -> cycle B) : cycle B :=
  fun st =>
    let '(a, st1, e1) := c st in
    let '(b, st2, e2) := k a st1 in
    (b, st2, e1 ++ e2).

Declare Scope cycle_scope.
Delimit Scope cycle_scope with cycle.
Notation "c1 ;; c2" := (bind c1 (fun _ => c2))
  (at level 61, right associativity) : cycle_scope.
Notation "x <- c1 ;; c2" := (bind c1 (fun x => c2))
  (at level 61, c1 at next level, right associativity) : cycle_scope.
Open Scope cycle_scope.

Definition emit (e : event) : cycle unit := fun st => (tt, st, [e]).

(** Reading [target[..]] and [current_depth]. *)
Definition get_target : cycle target_t := fun st => (target st, st, []).
Definition get_depth : cycle R := fun st => (current_depth st, st, []).

(** [target[X_AXIS] = x;] and [target[Z_AXIS] = z;] *)
Definition set_X (x : R) : cycle unit :=
  fun st => (tt, {| target := {| X_AXIS := x; Z_AXIS := Z_AXIS (target st) |};
                    current_depth := current_depth st |}, []).
Definition set_Z (z : R) : cycle unit :=
  fun st => (tt, {| target := {| X_AXIS := X_AXIS (target st); Z_AXIS := z |};
                    current_depth := current_depth st |}, []).

(** [current_depth = v;] *)
Definition set_depth (v : R) : cycle unit :=
  fun st => (tt, {| target := target st; current_depth := v |}, []).

(** [mc_line(target, &pl)]: the move is queued with the current buffer. *)
Definition mc_line (pl : plan_line_data_t) : cycle unit :=
  fun st => (tt, st, [McLine (X_AXIS (target st)) (Z_AXIS (target st)) pl]).

Definition protocol_buffer_synchronize : cycle unit := emit BufferSynchronize.
Definition stream_write (s : string) : cycle unit := emit (StreamWrite s).
Definition report_message (s : string) : cycle unit := emit (ReportMessage s).

(** [if(c) { body }] *)
Definition when (c : bool) (body : cycle unit) : cycle unit :=
  if c then body else ret tt.

(** [for(int i = start; ...; i++) body], run for [n] iterations. *)
Fixpoint for_loop (n : nat) (i : Z) (body : Z -> cycle unit) : cycle unit :=
  match n with
  | O => ret tt
  | S n' => body i ;; for_loop n' (i + 1)%Z body
  end.

(** [for(int i = lo; i < hi; i++) body] *)
Definition for_lt (lo hi : Z) (body : Z -> cycle unit) : cycle unit :=
  for_loop (Z.to_nat (hi - lo)) lo body.

(** [for(int i = lo; i <= hi; i++) body] *)
Definition for_le (lo hi : Z) (body : Z -> cycle unit) : cycle unit :=
  for_loop (Z.to_nat (hi + 1 - lo)) lo body.

(** Events and final buffer of a handler run. *)
Definition events_of {A : Type} (c : cycle A) (st : locals_t) : list event :=
  snd (c st).
Definition locals_after {A : Type} (c : cycle A) (st : locals_t) : locals_t :=
  snd (fst (c st)).

(** The motion commands among the events: the waypoint sequence. *)
Definition is_motion (e : event) : bool :=
  match e with McLine _ _ _ => true | _ => false end.
Definition moves (tr : list event) : list event := filter is_motion tr.

Definition crlf : string := String "013"%char (String "010"%char EmptyString).
Definition msg_cycle_start : string := "M800 CYCLE START" ++ crlf.
Definition msg_cycle_begin : string := "M800 CYCLE BEGIN" ++ crlf.
Definition msg_cycle_end : string := "M800 CYCLE END" ++ crlf.

Definition M800_Internal : Z := 800.

(** Components of a validation result. *)
Definition status_of (r : status_code_t * parser_block_t * list event) : status_code_t :=
  fst (fst r).
Definition block_of (r : status_code_t * parser_block_t * list event) : parser_block_t :=
  snd (fst r).

(** The handlers that were installed before the plugin ([user_mcode_prev]):
    each pointer may be null. *)
Record user_mcode_ptrs_t : Type := mkPtrs {
  prev_check : option (Z -> user_mcode_type_t);
  prev_validate :
    option (parser_block_t -> status_code_t * parser_block_t * list event);
  prev_execute : option (Z -> parser_block_t -> cycle unit)
}.

(* ======================================================================= *)
(** ** keyway/keyway_plugin.c: internal keyway cycle with sag compensation *)
(* ======================================================================= *)

Module Internal.

(** The SAG section of [m800_execute]: the locals computed from the bore
    radius [Rbore = X_start], the tool width [W] and the commanded depth
    [D]. *)
Record sag_t : Type := mkSag {
  halfC : R;
  d_center : R;
  sag : R;
  X_new_start : R;
  Dcorr : R;
  X_final : R
}.

(** The straight-line computation of the section. *)
Definition sag_locals (X_start W D : R) : sag_t :=
  let Rbore := X_start in
  let Cslot := W in
  let halfC := Cslot * 0.5 in
  let d_center := sqrtf ((Rbore * Rbore) - (halfC * halfC)) in
  let sag := Rbore - d_center in
  let X_new_start := X_start - sag in
  let Dcorr := D + sag in
  let X_final := X_new_start + Dcorr in
  {| halfC := halfC; d_center := d_center; sag := sag;
     X_new_start := X_new_start; Dcorr := Dcorr; X_final := X_final |}.

(** The section with its guard [if(halfC > Rbore)]: [None] is the early
    exit with the warning that the slot width exceeds the bore. *)
Definition m800_sag (X_start W D : R) : option sag_t :=
  let g := sag_locals X_start W D in
  if fgt (halfC g) X_start then None else Some g.

(** [int passes = (int)ceilf(Dcorr / P);] *)
Definition passes_of (Dcorr P : R) : Z := int_of_float (ceilf (Dcorr / P)).

(** [X_target = X_new_start + pass * P; if(X_target > X_final) X_target = X_final;] *)
Definition X_target_of (X_new_start X_final P : R) (pass : Z) : R :=
  let X_target := X_new_start + IZR pass * P in
  if fgt X_target X_final then X_final else X_target.

Section Handlers.

(** Compile-time switch [M800_DEBUG], the machine state and the previously
    installed handlers. *)
Variable M800_DEBUG : bool.
Variable mach : machine_t.
Variable user_mcode_prev : user_mcode_ptrs_t.

(** [M800_LOG(...)]: formats and writes only when [M800_DEBUG] is set. *)
Definition M800_LOG (tag : string) (args : list R) : cycle unit :=
  when M800_DEBUG (emit (DebugLog tag args)).

Definition m800_check (mcode : Z) : user_mcode_type_t :=
  if (mcode =? M800_Internal)%Z then UserMCode_NoValueWords
  else match prev_check user_mcode_prev with
       | Some check => check mcode
       | None => UserMCode_Unsupported
       end.

(** [m800_validate]: the status, the block as the handler leaves it (the
    word flags it claims are cleared on success) and the messages reported
    (none in this variant). *)
Definition m800_validate (gc_block : parser_block_t)
  : status_code_t * parser_block_t * list event :=
  let v := values gc_block in
  let w := words gc_block in
  if negb (user_mcode gc_block =? M800_Internal)%Z then
    match prev_validate user_mcode_prev with
    | Some validate => validate gc_block
    | None => (Status_Unhandled, gc_block, [])
    end
  else if fle (v_d v) 0 then (Status_InvalidStatement, gc_block, [])
  else if fle (v_q v) 0 then (Status_InvalidStatement, gc_block, [])
  else if fle (v_s v) 0 then (Status_InvalidStatement, gc_block, [])
  else if fle (v_p v) 0 then (Status_InvalidStatement, gc_block, [])
  else if fle (v_r v) 0 then (Status_InvalidStatement, gc_block, [])
  else if fgt (v_p v) (v_d v) then (Status_InvalidStatement, gc_block, [])
  else if w_l w && (v_l v <? 1)%Z then (Status_InvalidStatement, gc_block, [])
  else if w_h w && (fne (v_h v) 0 && fne (v_h v) 1) then (Status_InvalidStatement, gc_block, [])
  else if fle (gc_state_feed_rate mach) 0 then (Status_InvalidStatement, gc_block, [])
  else
    (Status_OK,
     set_words gc_block
       {| w_d := false; w_f := w_f w; w_h := false; w_l := false; w_n := w_n w;
          w_p := false; w_q := false; w_r := false; w_s := false |},
     []).

(** One stroke of the first (zero penetration) pass: the body of the
    [for(rep ...)] loop of the section PRIMA PASSATA. *)
Definition first_pass_rep (X_new_start Z_start Q Rz : R)
    (plan_g0 plan_g1 : plan_line_data_t) (rep : Z) : cycle unit :=
  set_X X_new_start ;;
  set_Z (Z_start + Rz) ;;
  M800_LOG "M800 G0 SAFE (FIRST)" [X_new_start; Z_start + Rz; 0; IZR (rep + 1)] ;;
  mc_line plan_g0 ;;

  set_X X_new_start ;;
  set_Z (Z_start + Rz) ;;
  M800_LOG "M800 G1 DEPTH (FIRST)" [X_new_start; Z_start + Rz; 0; IZR (rep + 1)] ;;
  mc_line plan_g1 ;;

  set_Z (Z_start + Q) ;;
  t <- get_target ;;
  M800_LOG "M800 G1 LENGTH (FIRST)" [X_AXIS t; Z_AXIS t; 0; IZR (rep + 1)] ;;
  mc_line plan_g1 ;;

  set_X X_new_start ;;
  t <- get_target ;;
  M800_LOG "M800 G0 BACKX (FIRST)" [X_AXIS t; Z_AXIS t; 0; IZR (rep + 1)] ;;
  mc_line plan_g0 ;;

  set_Z (Z_start + Rz) ;;
  t <- get_target ;;
  M800_LOG "M800 G0 BACKZ (FIRST)" [X_AXIS t; Z_AXIS t; 0; IZR (rep + 1)] ;;
  mc_line plan_g0.

(** One stroke of a radial pass: the body of the inner [for(rep ...)] loop
    of the section PASSATE RADIALI. *)
Definition radial_pass_rep (X_new_start X_target Z_start Q Rz : R)
    (plan_g0 plan_g1 : plan_line_data_t) (pass rep : Z) : cycle unit :=
  set_X X_new_start ;;
  set_Z (Z_start + Rz) ;;
  M800_LOG "M800 G0 SAFE" [X_new_start; Z_start + Rz; IZR pass; IZR (rep + 1)] ;;
  mc_line plan_g0 ;;

  set_X X_target ;;
  set_Z (Z_start + Rz) ;;
  M800_LOG "M800 G1 DEPTH" [X_target; Z_start + Rz; IZR pass; IZR (rep + 1)] ;;
  mc_line plan_g1 ;;

  set_Z (Z_start + Q) ;;
  t <- get_target ;;
  M800_LOG "M800 G1 LENGTH" [X_AXIS t; Z_AXIS t; IZR pass; IZR (rep + 1)] ;;
  mc_line plan_g1 ;;

  set_X X_new_start ;;
  t <- get_target ;;
  M800_LOG "M800 G0 BACKX" [X_AXIS t; Z_AXIS t; IZR pass; IZR (rep + 1)] ;;
  mc_line plan_g0 ;;

  set_Z (Z_start + Rz) ;;
  t <- get_target ;;
  M800_LOG "M800 G0 BACKZ" [X_AXIS t; Z_AXIS t; IZR pass; IZR (rep + 1)] ;;
  mc_line plan_g0.

(** The body of the outer [for(pass ...)] loop. *)
Definition radial_pass (X_new_start X_final Z_start Q Rz P : R) (Lreps : Z)
    (plan_g0 plan_g1 : plan_line_data_t) (pass : Z) : cycle unit :=
  let X_target := X_target_of X_new_start X_final P pass in
  for_lt 0 Lreps
    (radial_pass_rep X_new_start X_target Z_start Q Rz plan_g0 plan_g1 pass).

Definition m800_execute (state : Z) (gc_block : parser_block_t) : cycle unit :=
  if negb (user_mcode gc_block =? M800_Internal)%Z then
    match prev_execute user_mcode_prev with
    | Some execute => execute state gc_block
    | None => ret tt
    end
  else
    (* PARAMETRI *)
    let D := v_d (values gc_block) in
    let Q := - v_q (values gc_block) in
    let W := v_s (values gc_block) in
    let P := v_p (values gc_block) in
    let Rz := v_r (values gc_block) in
    let Lreps := if w_l (words gc_block) then v_l (values gc_block) else 1%Z in
    let return_home := feq (v_h (values gc_block)) 1 in

    protocol_buffer_synchronize ;;

    let X_raw := IZR (sys_position_X mach) in
    let Z_raw := IZR (sys_position_Z mach) in
    let X_start := X_raw / steps_per_mm_X mach in
    let Z_start := Z_raw / steps_per_mm_Z mach in

    stream_write msg_cycle_start ;;
    M800_LOG "M800 GEOMETRY" [X_start; Z_start; Q; W; gc_state_feed_rate mach] ;;

    (* SAG *)
    match m800_sag X_start W D with
    | None =>
        report_message "M800: Slot width exceeds bore diameter." ;;
        stream_write msg_cycle_end
    | Some g =>
        M800_LOG "M800 SAG" [X_start; W; sag g; X_new_start g; Dcorr g; X_final g] ;;

        (* PRE-POSIZIONAMENTO *)
        let plan_g0 := {| rapid_motion := true;
                          feed_rate := feed_rate plan_data_init |} in
        let plan_g1 := {| rapid_motion := false;
                          feed_rate := gc_state_feed_rate mach |} in
        set_X (memcpy_position_X mach) ;;
        set_Z (memcpy_position_Z mach) ;;

        set_X (X_new_start g) ;;
        set_Z (Z_start + Rz) ;;
        M800_LOG "M800 G0 SAG POS" [X_new_start g; Z_start + Rz] ;;
        mc_line plan_g0 ;;

        (* PRIMA PASSATA (NO PENETRAZIONE) *)
        for_lt 0 Lreps
          (first_pass_rep (X_new_start g) Z_start Q Rz plan_g0 plan_g1) ;;

        (* PASSATE RADIALI *)
        let passes := passes_of (Dcorr g) P in
        M800_LOG "M800 PASSES" [IZR passes; IZR Lreps] ;;
        for_le 1 passes
          (radial_pass (X_new_start g) (X_final g) Z_start Q Rz P Lreps
                       plan_g0 plan_g1) ;;

        (* RITORNO FINALE *)
        let plan_g0 := {| rapid_motion := true;
                          feed_rate := feed_rate plan_data_init |} in
        (if return_home
         then set_X X_start ;; set_Z Z_start
         else set_X (X_new_start g) ;; set_Z (Z_start + Rz)) ;;
        t <- get_target ;;
        M800_LOG "M800 RETURN" [X_AXIS t; Z_AXIS t] ;;
        mc_line plan_g0 ;;

        (* SINCRONIZZA *)
        protocol_buffer_synchronize ;;
        stream_write msg_cycle_end
    end.

(** [keyway_init]: the handlers installed so far are kept as
    [user_mcode_prev] and the three handlers take their place; the result
    is the new [grbl.user_mcode]. *)
Definition keyway_init : user_mcode_ptrs_t :=
  {| prev_check := Some m800_check;
     prev_validate := Some m800_validate;
     prev_execute := Some m800_execute |}.

(** A complete run of [m800_execute]: the locals are uninitialised on
    entry. *)
Definition m800_trace (state : Z) (gc_block : parser_block_t) (st0 : locals_t)
  : list event :=
  events_of (m800_execute state gc_block) st0.

End Handlers.

End Internal.

(* ======================================================================= *)
(** ** Legacy variant (release 1.0.0): keyway cycle without compensation   *)
(* ======================================================================= *)

Module Legacy.

(** [int passes = (int)(fabsf(total_depth / P) + 0.0001f);] *)
Definition passes_of (total_depth P : R) : Z :=
  int_of_float (fabsf (total_depth / P) + 0.0001).

(** The elision tests of the SAFE and BACKZ moves. *)
Definition safe_differs (t : target_t) (safeX safeZ : R) : bool :=
  fgt (fabsf (X_AXIS t - safeX)) 0.0001 || fgt (fabsf (Z_AXIS t - safeZ)) 0.0001.
Definition backZ_differs (t : target_t) (backZ : R) : bool :=
  fgt (fabsf (Z_AXIS t - backZ)) 0.0001.

Section Handlers.

Variable mach : machine_t.
Variable user_mcode_prev : user_mcode_ptrs_t.

(** [snprintf(dbg, ...); hal.stream.write(dbg);] *)
Definition log (tag : string) (args : list R) : cycle unit :=
  emit (DebugLog tag args).

Definition m800_check (mcode : Z) : user_mcode_type_t :=
  if (mcode =? M800_Internal)%Z then UserMCode_NoValueWords
  else match prev_check user_mcode_prev with
       | Some check => check mcode
       | None => UserMCode_Unsupported
       end.

Definition reject (msg : string) (gc_block : parser_block_t)
  : status_code_t * parser_block_t * list event :=
  (Status_InvalidStatement, gc_block, [ReportMessage msg]).

Definition m800_validate (gc_block : parser_block_t)
  : status_code_t * parser_block_t * list event :=
  let v := values gc_block in
  let w := words gc_block in
  if negb (user_mcode gc_block =? M800_Internal)%Z then
    match prev_validate user_mcode_prev with
    | Some validate => validate gc_block
    | None => (Status_Unhandled, gc_block, [])
    end
  else if fle (v_d v) 0 then reject "M800: D must be > 0." gc_block
  else if fle (IZR (v_l v)) 0 then reject "M800: L must be > 0." gc_block
  else if fle (v_p v) 0 then reject "M800: P must be > 0." gc_block
  else if fle (v_r v) 0 then reject "M800: R must be > 0." gc_block
  else if fle (v_f v) 0 then reject "M800: F must be > 0." gc_block
  else if fgt (v_p v) (v_d v) then reject "M800: P cannot be greater than D." gc_block
  else if w_n w && (v_n v <? 1)%Z then reject "M800: N must be >= 1." gc_block
  else if w_h w && (fne (v_h v) 0 && fne (v_h v) 1)
       then reject "M800: H must be 0 or 1." gc_block
  else
    (Status_OK,
     set_words gc_block
       {| w_d := false; w_f := false; w_h := false; w_l := false; w_n := false;
          w_p := false; w_q := w_q w; w_r := false; w_s := w_s w |},
     []).

(** The body of the inner [for(rep ...)] loop. *)
Definition pass_rep (X_start Z_start L Rz : R)
    (plan_g0 plan_g1 : plan_line_data_t) (pass rep : Z) : cycle unit :=
  (* 1) SAFE *)
  let safeX := X_start in
  let safeZ := Z_start + Rz in
  log "M800 G0 SAFE" [safeX; safeZ; IZR (pass + 1); IZR (rep + 1)] ;;
  t <- get_target ;;
  when (safe_differs t safeX safeZ)
       (set_X safeX ;; set_Z safeZ ;; mc_line plan_g0) ;;

  (* 2) DEPTH *)
  current_depth <- get_depth ;;
  set_X (X_start + current_depth) ;;
  set_Z (Z_start + Rz) ;;
  t <- get_target ;;
  log "M800 G1 DEPTH" [X_AXIS t; Z_AXIS t] ;;
  mc_line plan_g1 ;;

  (* 3) LENGTH *)
  set_Z (Z_start + L) ;;
  t <- get_target ;;
  log "M800 G1 LENGTH" [X_AXIS t; Z_AXIS t] ;;
  mc_line plan_g1 ;;

  (* 4) BACKX *)
  set_X X_start ;;
  t <- get_target ;;
  log "M800 G0 BACKX" [X_AXIS t; Z_AXIS t] ;;
  mc_line plan_g0 ;;

  (* 5) BACKZ *)
  let backZ := Z_start + Rz in
  t <- get_target ;;
  when (backZ_differs t backZ)
       (set_Z backZ ;;
        t <- get_target ;;
        log "M800 G0 BACKZ" [X_AXIS t; Z_AXIS t] ;;
        mc_line plan_g0).

(** The body of the outer [for(pass ...)] loop. *)
Definition pass_body (X_start Z_start L Rz P : R) (N : Z)
    (plan_g0 plan_g1 : plan_line_data_t) (pass : Z) : cycle unit :=
  current_depth <- get_depth ;;
  set_depth (current_depth + P) ;;
  for_lt 0 N (pass_rep X_start Z_start L Rz plan_g0 plan_g1 pass).

Definition m800_execute (state : Z) (gc_block : parser_block_t) : cycle unit :=
  if negb (user_mcode gc_block =? M800_Internal)%Z then
    match prev_execute user_mcode_prev with
    | Some execute => execute state gc_block
    | None => ret tt
    end
  else
    let D := v_d (values gc_block) in
    let L := - IZR (v_l (values gc_block)) in
    let P := - v_p (values gc_block) in
    let Rz := v_r (values gc_block) in
    let F := v_f (values gc_block) in
    let N := if w_n (words gc_block) then v_n (values gc_block) else 1%Z in
    let H := v_h (values gc_block) in
    let return_home := if feq H 0 then false else true in

    protocol_buffer_synchronize ;;

    let X_raw := IZR (sys_position_X mach) in
    let Z_raw := IZR (sys_position_Z mach) in
    let X_start := X_raw / steps_per_mm_X mach in
    let Z_start := Z_raw / steps_per_mm_Z mach in

    log "M800 START" [X_raw; Z_raw; X_start; Z_start;
                      gc_state_position_X mach; gc_state_position_Z mach; H] ;;
    stream_write msg_cycle_begin ;;

    let plan_g1 := {| rapid_motion := false; feed_rate := F |} in
    let plan_g0 := {| rapid_motion := true; feed_rate := 0 |} in

    set_X (memcpy_position_X mach) ;;
    set_Z (memcpy_position_Z mach) ;;

    let total_depth := - D in
    let passes := passes_of total_depth P in
    log "M800 PASSES" [IZR passes; IZR N] ;;

    set_depth 0 ;;

    (* Passate *)
    for_lt 0 passes (pass_body X_start Z_start L Rz P N plan_g0 plan_g1) ;;

    (* Passata finale *)
    set_X (X_start - D) ;;
    set_Z (Z_start + Rz) ;;
    log "M800 FINAL" [X_start - D; Z_start + Rz] ;;
    mc_line plan_g1 ;;

    (* Ritorno alla posizione iniziale (solo se H1) *)
    when return_home
         (set_X X_start ;;
          set_Z Z_start ;;
          log "M800 RETURN" [X_start; Z_start] ;;
          mc_line plan_g0) ;;

    (* Sincronizza e riallinea gc_state *)
    protocol_buffer_synchronize ;;
    emit (GcPositionAssign (sys_position_X mach) (sys_position_Z mach)) ;;
    stream_write msg_cycle_end.

(** [my_plugin_init]: as [keyway_init] of the internal variant. *)
Definition my_plugin_init : user_mcode_ptrs_t :=
  {| prev_check := Some m800_check;
     prev_validate := Some m800_validate;
     prev_execute := Some m800_execute |}.

Definition m800_trace (state : Z) (gc_block : parser_block_t) (st0 : locals_t)
  : list event :=
  events_of (m800_execute state gc_block) st0.

End Handlers.

End Legacy.

(* ======================================================================= *)
(** ** Quantities of a run, and the waypoint blocks of the specification   *)
(* ======================================================================= *)

(** The captured start position, in millimetres. *)
Definition X_start_of (mach : machine_t) : R :=
  IZR (sys_position_X mach) / steps_per_mm_X mach.
Definition Z_start_of (mach : machine_t) : R :=
  IZR (sys_position_Z mach) / steps_per_mm_Z mach.

(** The two motion profiles of the internal variant. *)
Definition plan_rapid : plan_line_data_t := {| rapid_motion := true; feed_rate := 0 |}.
Definition plan_feed (f : R) : plan_line_data_t := {| rapid_motion := false; feed_rate := f |}.

(** Repetitions per depth level as [Internal.m800_execute] reads them. *)
Definition Lreps_of (gc_block : parser_block_t) : Z :=
  if w_l (words gc_block) then v_l (values gc_block) else 1%Z.

(** [n] consecutive integers from [i]. *)
Fixpoint Zseq (i : Z) (n : nat) : list Z :=
  match n with
  | O => []
  | S n' => i :: Zseq (i + 1) n'
  end.

(** The five waypoints of one stroke (Safe, Depth, Length, BackPlunge,
    BackTravel) with safe plunge position [xs], plunge target [xt], retract
    plane [zr] and end of slot [zq]. *)
Definition stroke (xs xt zr zq : R) (g0 g1 : plan_line_data_t) : list event :=
  [ McLine xs zr g0; McLine xt zr g1; McLine xt zq g1;
    McLine xs zq g0; McLine xs zr g0 ].

(** [reps] strokes at one depth level. *)
Definition level (reps : Z) (xs xt zr zq : R) (g0 g1 : plan_line_data_t) : list event :=
  flat_map (fun _ => stroke xs xt zr zq g0 g1) (Zseq 0 (Z.to_nat reps)).

(** A property of every motion target of a trace. *)
Definition all_moves (P : R -> R -> plan_line_data_t -> Prop) (tr : list event) : Prop :=
  Forall (fun e => match e with McLine x z pl => P x z pl | _ => True end) tr.




(* ======================================================================= *)
(** ** Acceptance, and the parts of the internal waypoint sequence         *)
(* ======================================================================= *)

(** What an accepted block satisfies. *)
Record accepted_values (feed : R) (gc_block : parser_block_t) : Prop := mkAccepted {
  acc_d : 0 < v_d (values gc_block);
  acc_q : 0 < v_q (values gc_block);
  acc_s : 0 < v_s (values gc_block);
  acc_p : 0 < v_p (values gc_block);
  acc_r : 0 < v_r (values gc_block);
  acc_step : v_p (values gc_block) <= v_d (values gc_block);
  acc_l : w_l (words gc_block) = true -> (1 <= v_l (values gc_block))%Z;
  acc_h : w_h (words gc_block) = true ->
          v_h (values gc_block) = 0 \/ v_h (values gc_block) = 1;
  acc_feed : 0 < feed
}.

(** The target of the final return. *)
Definition return_target (mach : machine_t) (gc_block : parser_block_t)
    (g : Internal.sag_t) : R * R :=
  if feq (v_h (values gc_block)) 1
  then (X_start_of mach, Z_start_of mach)
  else (Internal.X_new_start g, Z_start_of mach + v_r (values gc_block)).

(** The radial passes as a list of depth levels. *)
Definition radial_levels (mach : machine_t) (gc_block : parser_block_t)
    (g : Internal.sag_t) : list event :=
  let zs := Z_start_of mach in
  let P := v_p (values gc_block) in
  flat_map
    (fun pass =>
       level (Lreps_of gc_block) (Internal.X_new_start g)
             (Internal.X_target_of (Internal.X_new_start g) (Internal.X_final g) P pass)
             (zs + v_r (values gc_block)) (zs + - v_q (values gc_block))
             plan_rapid (plan_feed (gc_state_feed_rate mach)))
    (Zseq 1 (Z.to_nat (Internal.passes_of (Internal.Dcorr g) P))).

(* ======================================================================= *)
(** ** Concrete machines and commands                                      *)
(* ======================================================================= *)

(** No handler installed before the plugin. *)
Definition no_prev : user_mcode_ptrs_t :=
  {| prev_check := None; prev_validate := None; prev_execute := None |}.

(** Tool at X5 Z10 (100 steps per millimetre), feed F1000. *)
Definition machine_X5_Z10 : machine_t :=
  {| sys_position_X := 500; sys_position_Z := 1000;
     steps_per_mm_X := 100; steps_per_mm_Z := 100;
     gc_state_feed_rate := 1000;
     gc_state_position_X := 5; gc_state_position_Z := 10;
     memcpy_position_X := 0; memcpy_position_Z := 0 |}.

(** Tool at X10 Z10, feed F1000. *)
Definition machine_X10_Z10 : machine_t :=
  {| sys_position_X := 1000; sys_position_Z := 1000;
     steps_per_mm_X := 100; steps_per_mm_Z := 100;
     gc_state_feed_rate := 1000;
     gc_state_position_X := 10; gc_state_position_Z := 10;
     memcpy_position_X := 0; memcpy_position_Z := 0 |}.

Definition words_DQSPR : parameter_words_t :=
  {| w_d := true; w_f := false; w_h := false; w_l := false; w_n := false;
     w_p := true; w_q := true; w_r := true; w_s := true |}.

(** [M800 D2 Q10 S6 P1 R2]: no L word, no H word (their values are as the
    parser leaves them for absent words, zero). *)
Definition block_D2_Q10_S6_P1_R2 : parser_block_t :=
  {| user_mcode := 800;
     words := words_DQSPR;
     values := {| v_d := 2; v_f := 0; v_h := 0; v_l := 0; v_n := 0;
                  v_p := 1; v_q := 10; v_r := 2; v_s := 6 |} |}.

(** [M800 D2 Q10 S22 P0.5 R2]: tool wider than the bore at X10. *)
Definition block_S22 : parser_block_t :=
  {| user_mcode := 800;
     words := words_DQSPR;
     values := {| v_d := 2; v_f := 0; v_h := 0; v_l := 0; v_n := 0;
                  v_p := 0.5; v_q := 10; v_r := 2; v_s := 22 |} |}.

(** [M800 D2 L10 P0.5 R2 F1000 H1], a command of the legacy variant. *)
Definition legacy_block_D2_L10_P05_R2_F1000 : parser_block_t :=
  {| user_mcode := 800;
     words := {| w_d := true; w_f := true; w_h := true; w_l := true; w_n := false;
                 w_p := true; w_q := false; w_r := true; w_s := false |};
     values := {| v_d := 2; v_f := 1000; v_h := 1; v_l := 10; v_n := 0;
                  v_p := 0.5; v_q := 0; v_r := 2; v_s := 0 |} |}.

(** [M800 D2 L10 P0.5 R2 F1000], a legacy command without H word. *)
Definition legacy_block_no_H : parser_block_t :=
  {| user_mcode := 800;
     words := {| w_d := true; w_f := true; w_h := false; w_l := true; w_n := false;
                 w_p := true; w_q := false; w_r := true; w_s := false |};
     values := {| v_d := 2; v_f := 1000; v_h := 0; v_l := 10; v_n := 0;
                  v_p := 0.5; v_q := 0; v_r := 2; v_s := 0 |} |}.

(** The sag locals of [S6 D2] at X5. *)
Definition sag_X5_S6_D2 : Internal.sag_t :=
  Internal.sag_locals (X_start_of machine_X5_Z10) 6 2.

Definition locals0 : locals_t :=
  {| target := {| X_AXIS := 0; Z_AXIS := 0 |}; current_depth := 0 |}.

(* ======================================================================= *)
(** ** Traces that end with a queue drain                                  *)
(* ======================================================================= *)

(** The end marker [hal.stream.write("M800 CYCLE END\r\n")]. *)
Definition is_cycle_end (e : event) : bool :=
  match e with
  | StreamWrite s => String.eqb s msg_cycle_end
  | _ => false
  end.

(** The trace has a queue drain with no end marker before it, no motion
    command after it and the end marker after it. *)
Definition end_after_drain (tr : list event) : Prop :=
  exists pre post : list event,
    tr = pre ++ BufferSynchronize :: post
    /\ Forall (fun e => is_cycle_end e = false) pre
    /\ Forall (fun e => is_motion e = false) post
    /\ In (StreamWrite msg_cycle_end) post.

(* ======================================================================= *)
(** ** The parts of the legacy waypoint sequence; chains of rapid moves     *)
(* ======================================================================= *)

(** The locals when the pass loop of the legacy variant starts. *)
Definition legacy_start_locals (mach : machine_t) : locals_t :=
  {| target := {| X_AXIS := memcpy_position_X mach; Z_AXIS := memcpy_position_Z mach |};
     current_depth := 0 |}.

(** Number of passes and repetitions as [Legacy.m800_execute] computes
    them. *)
Definition legacy_passes (gc_block : parser_block_t) : Z :=
  Legacy.passes_of (- v_d (values gc_block)) (- v_p (values gc_block)).
Definition legacy_N (gc_block : parser_block_t) : Z :=
  if w_n (words gc_block) then v_n (values gc_block) else 1%Z.

(** The waypoints of the pass loop of the legacy variant. *)
Definition legacy_radial_moves (mach : machine_t) (gc_block : parser_block_t)
  : list event :=
  moves (events_of
           (for_lt 0 (legacy_passes gc_block)
              (Legacy.pass_body (X_start_of mach) (Z_start_of mach)
                 (- IZR (v_l (values gc_block))) (v_r (values gc_block))
                 (- v_p (values gc_block)) (legacy_N gc_block)
                 plan_rapid (plan_feed (v_f (values gc_block)))))
           (legacy_start_locals mach)).

(** The final plunge and the optional return of the legacy variant. *)
Definition legacy_final_plunge (mach : machine_t) (gc_block : parser_block_t) : event :=
  McLine (X_start_of mach - v_d (values gc_block))
         (Z_start_of mach + v_r (values gc_block))
         (plan_feed (v_f (values gc_block))).
Definition legacy_return (mach : machine_t) (gc_block : parser_block_t) : list event :=
  if feq (v_h (values gc_block)) 0 then []
  else [McLine (X_start_of mach) (Z_start_of mach) plan_rapid].

(** The SAFE move of a legacy stroke: queued only when the buffer [t] is
    not yet at the safe position [(xs, zr)]. *)
Definition legacy_safe (t : target_t) (xs zr : R) (g0 : plan_line_data_t) : list event :=
  if Legacy.safe_differs t xs zr then [McLine xs zr g0] else [].

(** The other four waypoints of a legacy stroke at depth offset [cd]
    (Depth, Length, BackX, BackZ), with end of slot [zl]. *)
Definition legacy_cut (xs zr zl cd : R) (g0 g1 : plan_line_data_t) : list event :=
  [ McLine (xs + cd) zr g1; McLine (xs + cd) zl g1;
    McLine xs zl g0; McLine xs zr g0 ].

(** All strokes of the legacy pass loop after the first SAFE move: pass
    [k] (counted from 0) cuts at depth offset [(k + 1) * P], [P] negative. *)
Definition legacy_levels (mach : machine_t) (gc_block : parser_block_t) : list event :=
  let zs := Z_start_of mach in
  flat_map
    (fun pass =>
       flat_map
         (fun _ => legacy_cut (X_start_of mach) (zs + v_r (values gc_block))
                     (zs + - IZR (v_l (values gc_block)))
                     (IZR (pass + 1) * - v_p (values gc_block))
                     plan_rapid (plan_feed (v_f (values gc_block))))
         (Zseq 0 (Z.to_nat (legacy_N gc_block))))
    (Zseq 0 (Z.to_nat (legacy_passes gc_block))).






(* ======================================================================= *)
(** ** Waypoint sequences with a final plunge, without repeated waypoints   *)
(* ======================================================================= *)

(** The waypoints of the internal variant up to the end of the radial
    passes. *)
Definition internal_prefix (mach : machine_t) (gc_block : parser_block_t)
    (g : Internal.sag_t) : list event :=
  let zr := Z_start_of mach + v_r (values gc_block) in
  let zq := Z_start_of mach + - v_q (values gc_block) in
  McLine (Internal.X_new_start g) zr plan_rapid
  :: level (Lreps_of gc_block) (Internal.X_new_start g) (Internal.X_new_start g)
           zr zq plan_rapid (plan_feed (gc_state_feed_rate mach))
  ++ radial_levels mach gc_block g.



(* ======================================================================= *)
(** ** Rejection reasons and the order of the validation rules             *)
(* ======================================================================= *)










(* ======================================================================= *)
(** ** Handler sets, debug lines, chains of waypoints, more commands       *)
(* ======================================================================= *)

(** Calling through a set of handler pointers, as the plugin calls
    [user_mcode_prev] (and the core calls [grbl.user_mcode]): a null pointer
    gives the default answer. *)
Definition dispatch_check (h : user_mcode_ptrs_t) (mcode : Z) : user_mcode_type_t :=
  match prev_check h with
  | Some check => check mcode
  | None => UserMCode_Unsupported
  end.
Definition dispatch_validate (h : user_mcode_ptrs_t) (gc_block : parser_block_t)
  : status_code_t * parser_block_t * list event :=
  match prev_validate h with
  | Some validate => validate gc_block
  | None => (Status_Unhandled, gc_block, [])
  end.
Definition dispatch_execute (h : user_mcode_ptrs_t) (state : Z)
    (gc_block : parser_block_t) : cycle unit :=
  match prev_execute h with
  | Some execute => execute state gc_block
  | None => ret tt
  end.

(** The debug lines of a trace, and the trace without them. *)
Definition is_debug (e : event) : bool :=
  match e with DebugLog _ _ => true | _ => false end.
Definition strip_debug (tr : list event) : list event :=
  filter (fun e => negb (is_debug e)) tr.









(** [M123]: a block of some other user M-code. *)
Definition block_M123 : parser_block_t :=
  {| user_mcode := 123;
     words := words_DQSPR;
     values := {| v_d := 2; v_f := 0; v_h := 0; v_l := 0; v_n := 0;
                  v_p := 1; v_q := 10; v_r := 2; v_s := 6 |} |}.

(* ======================================================================= *)
(** ** Facts about the numeric primitives                                  *)
(* ======================================================================= *)

Lemma fle_true (x y : R) : fle x y = true <-> x <= y.
Proof. unfold fle. destruct (Rle_dec x y); split; intros; auto; discriminate. Qed.

Lemma fle_false (x y : R) : fle x y = false <-> y < x.
Proof.
  unfold fle. destruct (Rle_dec x y); split; intros; try discriminate; try lra; auto.
Qed.

Lemma fgt_true (x y : R) : fgt x y = true <-> x > y.
Proof.
  unfold fgt, flt. destruct (Rlt_dec y x); split; intros; auto; try discriminate; lra.
Qed.

Lemma fgt_false (x y : R) : fgt x y = false <-> x <= y.
Proof.
  unfold fgt, flt. destruct (Rlt_dec y x); split; intros; auto; try discriminate; lra.
Qed.

Lemma feq_true (x y : R) : feq x y = true <-> x = y.
Proof. unfold feq. destruct (Req_dec_T x y); split; intros; auto; discriminate. Qed.

Lemma feq_false (x y : R) : feq x y = false <-> x <> y.
Proof.
  unfold feq. destruct (Req_dec_T x y); split; intros; auto; try discriminate; contradiction.
Qed.

Lemma fne_true (x y : R) : fne x y = true <-> x <> y.
Proof.
  unfold fne. rewrite negb_true_iff. apply feq_false.
Qed.

(** An integer is the floor of every real of its unit interval. *)
Lemma Int_part_unique (x : R) (n : Z) : IZR n <= x < IZR n + 1 -> Int_part x = n.
Proof.
  intros [H1 H2]. symmetry. apply Int_part_spec. lra.
Qed.

Lemma Int_part_IZR (n : Z) : Int_part (IZR n) = n.
Proof. apply Int_part_unique. lra. Qed.

(** [ceilf x] is the integer [n] with [n - 1 < x <= n]. *)
Lemma ceilf_unique (x : R) (n : Z) : IZR n - 1 < x <= IZR n -> ceilf x = IZR n.
Proof.
  intros [H1 H2]. unfold ceilf. f_equal.
  rewrite (Int_part_unique (- x) (- n)); [lia|].
  rewrite opp_IZR. lra.
Qed.


Lemma int_of_float_IZR (n : Z) : int_of_float (IZR n) = n.
Proof.
  unfold int_of_float. destruct (Rle_dec 0 (IZR n)).
  - apply Int_part_IZR.
  - rewrite <- opp_IZR, Int_part_IZR. lia.
Qed.


Lemma int_ceilf_unique (x : R) (n : Z) :
  IZR n - 1 < x <= IZR n -> int_of_float (ceilf x) = n.
Proof.
  intros H. rewrite (ceilf_unique x n H). apply int_of_float_IZR.
Qed.

(** Decides the float comparisons of a goal whose operands are numerals. *)
Ltac fcmp :=
  repeat match goal with
  | |- context [fle ?a ?b] =>
      first [ rewrite (proj2 (fle_true a b)) by lra
            | rewrite (proj2 (fle_false a b)) by lra ]
  | |- context [fgt ?a ?b] =>
      first [ rewrite (proj2 (fgt_true a b)) by lra
            | rewrite (proj2 (fgt_false a b)) by lra ]
  | |- context [feq ?a ?b] =>
      first [ rewrite (proj2 (feq_true a b)) by lra
            | rewrite (proj2 (feq_false a b)) by lra ]
  end.

(* ======================================================================= *)
(** ** Running handlers: sequencing and loops                              *)
(* ======================================================================= *)

Lemma events_bind {A B : Type} (c : cycle A) (k : A -> cycle B) (st : locals_t) :
  events_of (bind c k) st
  = events_of c st ++ events_of (k (fst (fst (c st)))) (locals_after c st).
Proof.
  unfold events_of, locals_after, bind.
  destruct (c st) as [[a st1] e1]. simpl.
  destruct (k a st1) as [[b st2] e2]. reflexivity.
Qed.

Lemma locals_bind {A B : Type} (c : cycle A) (k : A -> cycle B) (st : locals_t) :
  locals_after (bind c k) st
  = locals_after (k (fst (fst (c st)))) (locals_after c st).
Proof.
  unfold locals_after, bind.
  destruct (c st) as [[a st1] e1]. simpl.
  destruct (k a st1) as [[b st2] e2]. reflexivity.
Qed.

Lemma moves_app (l1 l2 : list event) : moves (l1 ++ l2) = moves l1 ++ moves l2.
Proof. apply filter_app. Qed.

Lemma all_moves_moves P (tr : list event) : all_moves P (moves tr) <-> all_moves P tr.
Proof.
  unfold all_moves, moves. induction tr as [|e tr IH]; simpl.
  - tauto.
  - destruct e; simpl; rewrite ?Forall_cons_iff, IH; tauto.
Qed.

(** A loop whose body emits, from any state, the waypoints [blk i]. *)
Lemma for_loop_moves (body : Z -> cycle unit) (blk : Z -> list event) :
  (forall i st, moves (events_of (body i) st) = blk i) ->
  forall n i st,
    moves (events_of (for_loop n i body) st) = flat_map blk (Zseq i n).
Proof.
  intros Hbody. induction n as [|n IH]; intros i st; simpl.
  - reflexivity.
  - rewrite events_bind, moves_app, Hbody, IH. reflexivity.
Qed.


(* ======================================================================= *)
(** ** The internal variant: validation and the waypoint sequence          *)
(* ======================================================================= *)

Lemma validate_ok_iff (mach : machine_t) (prev : user_mcode_ptrs_t)
    (gc_block : parser_block_t) :
  user_mcode gc_block = M800_Internal ->
  (status_of (Internal.m800_validate mach prev gc_block) = Status_OK
   <-> accepted_values (gc_state_feed_rate mach) gc_block).
Proof.
  intros Hm. unfold Internal.m800_validate. rewrite Hm. simpl.
  destruct (fle (v_d (values gc_block)) 0) eqn:Ed;
    [apply fle_true in Ed | apply fle_false in Ed].
  { simpl; split; [discriminate | intros []; lra]. }
  destruct (fle (v_q (values gc_block)) 0) eqn:Eq;
    [apply fle_true in Eq | apply fle_false in Eq].
  { simpl; split; [discriminate | intros []; lra]. }
  destruct (fle (v_s (values gc_block)) 0) eqn:Es;
    [apply fle_true in Es | apply fle_false in Es].
  { simpl; split; [discriminate | intros []; lra]. }
  destruct (fle (v_p (values gc_block)) 0) eqn:Ep;
    [apply fle_true in Ep | apply fle_false in Ep].
  { simpl; split; [discriminate | intros []; lra]. }
  destruct (fle (v_r (values gc_block)) 0) eqn:Er;
    [apply fle_true in Er | apply fle_false in Er].
  { simpl; split; [discriminate | intros []; lra]. }
  destruct (fgt (v_p (values gc_block)) (v_d (values gc_block))) eqn:Epd;
    [apply fgt_true in Epd | apply fgt_false in Epd].
  { simpl; split; [discriminate | intros []; lra]. }
  destruct (w_l (words gc_block) && (v_l (values gc_block) <? 1)%Z) eqn:El.
  { simpl; split; [discriminate|]. intros [].
    apply andb_true_iff in El as [El1 El2]. apply Z.ltb_lt in El2.
    specialize (acc_l0 El1). lia. }
  destruct (w_h (words gc_block)
            && (fne (v_h (values gc_block)) 0 && fne (v_h (values gc_block)) 1)) eqn:Eh.
  { simpl; split; [discriminate|]. intros [].
    apply andb_true_iff in Eh as [Eh1 Eh2]. apply andb_true_iff in Eh2 as [Eh2 Eh3].
    apply fne_true in Eh2, Eh3. destruct (acc_h0 Eh1); contradiction. }
  destruct (fle (gc_state_feed_rate mach) 0) eqn:Ef;
    [apply fle_true in Ef | apply fle_false in Ef].
  { simpl; split; [discriminate | intros []; lra]. }
  simpl. split; [intros _ | reflexivity].
  constructor; try lra.
  - intros Hl. rewrite Hl in El. simpl in El. apply Z.ltb_ge in El. lia.
  - intros Hh. rewrite Hh in Eh. simpl in Eh.
    apply andb_false_iff in Eh as [Eh | Eh]; unfold fne in Eh;
      apply negb_false_iff, feq_true in Eh; auto.
Qed.

Lemma first_pass_rep_moves (M800_DEBUG : bool) (xs zs Q Rz : R) (g0 g1 : plan_line_data_t)
    (rep : Z) (st : locals_t) :
  moves (events_of (Internal.first_pass_rep M800_DEBUG xs zs Q Rz g0 g1 rep) st)
  = stroke xs xs (zs + Rz) (zs + Q) g0 g1.
Proof.
  unfold Internal.first_pass_rep, Internal.M800_LOG, events_of.
  destruct M800_DEBUG; reflexivity.
Qed.

Lemma radial_pass_rep_moves (M800_DEBUG : bool) (xs xt zs Q Rz : R) (g0 g1 : plan_line_data_t)
    (pass rep : Z) (st : locals_t) :
  moves (events_of (Internal.radial_pass_rep M800_DEBUG xs xt zs Q Rz g0 g1 pass rep) st)
  = stroke xs xt (zs + Rz) (zs + Q) g0 g1.
Proof.
  unfold Internal.radial_pass_rep, Internal.M800_LOG, events_of.
  destruct M800_DEBUG; reflexivity.
Qed.

Lemma radial_pass_moves (M800_DEBUG : bool) (xs xf zs Q Rz P : R) (Lreps : Z)
    (g0 g1 : plan_line_data_t) (pass : Z) (st : locals_t) :
  moves (events_of (Internal.radial_pass M800_DEBUG xs xf zs Q Rz P Lreps g0 g1 pass) st)
  = level Lreps xs (Internal.X_target_of xs xf P pass) (zs + Rz) (zs + Q) g0 g1.
Proof.
  unfold Internal.radial_pass, for_lt, level.
  rewrite (for_loop_moves _ _ (radial_pass_rep_moves _ _ _ _ _ _ _ _ _)).
  rewrite Z.sub_0_r. reflexivity.
Qed.

(** The complete waypoint sequence of an accepted cycle: pre-positioning,
    first pass without penetration, radial passes, final return. *)
Lemma internal_moves (M800_DEBUG : bool) (mach : machine_t)
    (prev : user_mcode_ptrs_t) (state : Z) (gc_block : parser_block_t)
    (st0 : locals_t) (g : Internal.sag_t) :
  user_mcode gc_block = M800_Internal ->
  Internal.m800_sag (X_start_of mach) (v_s (values gc_block)) (v_d (values gc_block))
    = Some g ->
  let zs := Z_start_of mach in
  let zr := zs + v_r (values gc_block) in
  let zq := zs + - v_q (values gc_block) in
  let xs := Internal.X_new_start g in
  moves (Internal.m800_trace M800_DEBUG mach prev state gc_block st0)
  = McLine xs zr plan_rapid
    :: level (Lreps_of gc_block) xs xs zr zq
             plan_rapid (plan_feed (gc_state_feed_rate mach))
    ++ radial_levels mach gc_block g
    ++ [McLine (fst (return_target mach gc_block g))
               (snd (return_target mach gc_block g)) plan_rapid].
Proof.
  intros Hm Hg. cbv zeta.
  unfold Internal.m800_trace, Internal.m800_execute.
  rewrite Hm. cbn [Z.eqb M800_Internal negb Pos.eqb].
  fold (X_start_of mach) (Z_start_of mach).
  rewrite Hg.
  repeat (rewrite events_bind, moves_app). rewrite ?locals_bind.
  unfold for_lt, for_le.
  rewrite (for_loop_moves _ _ (first_pass_rep_moves _ _ _ _ _ _ _)).
  rewrite (for_loop_moves _ _ (radial_pass_moves _ _ _ _ _ _ _ _ _ _)).
  unfold return_target, radial_levels, level, Lreps_of, plan_rapid, plan_feed.
  rewrite !Z.sub_0_r. replace (Internal.passes_of (Internal.Dcorr g) (v_p (values gc_block)) + 1 - 1)%Z
    with (Internal.passes_of (Internal.Dcorr g) (v_p (values gc_block))) by lia.
  unfold Internal.M800_LOG, events_of.
  destruct M800_DEBUG, (feq (v_h (values gc_block)) 1); reflexivity.
Qed.

(* ======================================================================= *)
(** ** Sag geometry                                                        *)
(* ======================================================================= *)

Lemma m800_sag_some (X W D : R) :
  W * 0.5 <= X -> Internal.m800_sag X W D = Some (Internal.sag_locals X W D).
Proof.
  intros H. unfold Internal.m800_sag.
  change (Internal.halfC (Internal.sag_locals X W D)) with (W * 0.5).
  apply fgt_false in H. now rewrite H.
Qed.

Lemma m800_sag_none (X W D : R) :
  W * 0.5 > X -> Internal.m800_sag X W D = None.
Proof.
  intros H. unfold Internal.m800_sag.
  change (Internal.halfC (Internal.sag_locals X W D)) with (W * 0.5).
  apply fgt_true in H. now rewrite H.
Qed.

(** The centre distance lies between 0 and the bore radius. *)
Lemma d_center_bounds (X W D : R) :
  0 <= W * 0.5 <= X ->
  0 <= Internal.d_center (Internal.sag_locals X W D) <= X.
Proof.
  intros [H0 H1]. cbn [Internal.d_center Internal.sag_locals]. unfold sqrtf.
  split; [apply sqrt_pos|].
  assert (HX : sqrt (X * X) = X) by (apply sqrt_square; lra).
  rewrite <- HX at 3.
  apply sqrt_le_1; nra.
Qed.


(** Start shift and depth correction cancel: the final target is the
    captured start plus the commanded depth. *)
Lemma X_final_eq (X W D : R) :
  Internal.X_final (Internal.sag_locals X W D) = X + D.
Proof. cbn [Internal.X_final Internal.sag_locals]. lra. Qed.

Lemma sag_strictly_increasing (X W1 W2 D1 D2 : R) :
  0 <= W1 * 0.5 -> W1 < W2 -> W2 * 0.5 <= X ->
  Internal.sag (Internal.sag_locals X W1 D1) < Internal.sag (Internal.sag_locals X W2 D2).
Proof.
  intros H0 H12 H2. cbn [Internal.sag Internal.sag_locals]. unfold sqrtf.
  assert (sqrt (X * X - W2 * 0.5 * (W2 * 0.5)) < sqrt (X * X - W1 * 0.5 * (W1 * 0.5))).
  { apply sqrt_lt_1_alt. nra. }
  lra.
Qed.

(** A bracket for a square root. *)
Lemma sqrt_between (x a b : R) :
  0 <= a -> 0 <= b -> a * a < x < b * b -> a < sqrt x < b.
Proof.
  intros Ha Hb [H1 H2]. split.
  - assert (Hsa : sqrt (a * a) = a) by now apply sqrt_square.
    rewrite <- Hsa at 1. apply sqrt_lt_1_alt. nra.
  - assert (Hsb : sqrt (b * b) = b) by now apply sqrt_square.
    rewrite <- Hsb at 1. apply sqrt_lt_1_alt. nra.
Qed.

(* ======================================================================= *)
(** ** Pass count and plunge targets of the internal variant               *)
(* ======================================================================= *)

Lemma X_target_of_Rmin (xs xf P : R) (pass : Z) :
  Internal.X_target_of xs xf P pass = Rmin (xs + IZR pass * P) xf.
Proof.
  unfold Internal.X_target_of, Rmin.
  destruct (fgt (xs + IZR pass * P) xf) eqn:E;
    [apply fgt_true in E | apply fgt_false in E];
    destruct (Rle_dec (xs + IZR pass * P) xf); lra.
Qed.





Lemma all_moves_level P (reps : Z) (xs xt zr zq : R) (g0 g1 : plan_line_data_t) :
  P xs zr g0 -> P xt zr g1 -> P xt zq g1 -> P xs zq g0 ->
  all_moves P (level reps xs xt zr zq g0 g1).
Proof.
  intros H1 H2 H3 H4. unfold level, all_moves.
  apply Forall_flat_map, Forall_forall. intros _ _.
  unfold stroke. repeat constructor; assumption.
Qed.

(* ======================================================================= *)
(** ** The concrete commands are accepted                                   *)
(* ======================================================================= *)

Lemma block_D2_accepted :
  status_of (Internal.m800_validate machine_X5_Z10 no_prev block_D2_Q10_S6_P1_R2)
  = Status_OK.
Proof.
  apply validate_ok_iff; [reflexivity|].
  constructor; simpl; try lra; discriminate.
Qed.

Lemma legacy_block_D2_accepted :
  status_of (Legacy.m800_validate no_prev legacy_block_D2_L10_P05_R2_F1000)
  = Status_OK.
Proof.
  unfold Legacy.m800_validate, legacy_block_D2_L10_P05_R2_F1000.
  cbn [user_mcode values words v_d v_l v_p v_r v_f v_n v_h w_n w_h
       Z.eqb M800_Internal negb Pos.eqb andb].
  fcmp. unfold fne. fcmp. reflexivity.
Qed.

(* ======================================================================= *)
(** ** Claims about the internal variant                                   *)
(* ======================================================================= *)





(** C2.  When half the tool width does not exceed the bore radius, the
    sag section computes [d_center = sqrt (R^2 - (W/2)^2)],
    [sag = R - d_center], [X_new_start = R - sag], [Dcorr = D + sag] and
    [X_final = X_new_start + Dcorr].  For [D = 2], [W = 8], [R = 10] the
    half width is 4 and the values are 9.165, 0.835, 9.165, 2.835 and 12.0
    within 0.001. *)
Theorem C2_sag_geometry (Rbore W D : R) :
  W / 2 <= Rbore ->
  exists g : Internal.sag_t,
    Internal.m800_sag Rbore W D = Some g
    /\ Internal.halfC g = W / 2
    /\ Internal.d_center g = sqrt (Rbore * Rbore - (W / 2) * (W / 2))
    /\ Internal.sag g = Rbore - Internal.d_center g
    /\ Internal.X_new_start g = Rbore - Internal.sag g
    /\ Internal.Dcorr g = D + Internal.sag g
    /\ Internal.X_final g = Internal.X_new_start g + Internal.Dcorr g
    /\ (Rbore = 10 -> W = 8 -> D = 2 ->
        Internal.halfC g = 4
        /\ Rabs (Internal.d_center g - 9.165) < 0.001
        /\ Rabs (Internal.sag g - 0.835) < 0.001
        /\ Rabs (Internal.X_new_start g - 9.165) < 0.001
        /\ Rabs (Internal.Dcorr g - 2.835) < 0.001
        /\ Rabs (Internal.X_final g - 12.0) < 0.001).
Proof.
  intros Hfit. exists (Internal.sag_locals Rbore W D).
  split; [apply m800_sag_some; lra|].
  assert (Hd : Internal.d_center (Internal.sag_locals Rbore W D)
               = sqrt (Rbore * Rbore - (W / 2) * (W / 2))).
  { cbn [Internal.d_center Internal.sag_locals]. unfold sqrtf. f_equal. lra. }
  split; [cbn [Internal.halfC Internal.sag_locals]; lra|].
  split; [exact Hd|].
  do 4 (split; [reflexivity|]).
  intros -> -> ->.
  assert (Hs : 9.1645 < Internal.d_center (Internal.sag_locals 10 8 2) < 9.1655).
  { rewrite Hd. apply sqrt_between; lra. }
  cbn [Internal.halfC Internal.d_center Internal.sag Internal.X_new_start
       Internal.Dcorr Internal.X_final Internal.sag_locals] in *.
  split; [lra|].
  repeat split; apply Rabs_def1; lra.
Qed.

(** C2 on scenario B ([D = 2], [W = 8], bore radius 10). *)
Lemma C2_sag_geometry_witness :
  exists g : Internal.sag_t,
    Internal.m800_sag 10 8 2 = Some g
    /\ Rabs (Internal.X_final g - 12.0) < 0.001.
Proof.
  destruct (C2_sag_geometry 10 8 2) as [g Hg]; [lra|].
  exists g. split; [apply Hg|].
  apply Hg; reflexivity.
Defined.

(** C9.  For a bore radius [R > 0], the sag is zero for a tool of width
    zero, is strictly increasing in the tool width [W] on [0 < W/2 < R],
    and with width zero the compensation changes nothing: the sag section
    succeeds with [sag = 0] and [Dcorr = D]. *)
Theorem C9_sag_monotone (Rbore D : R) :
  0 < Rbore ->
  Internal.sag (Internal.sag_locals Rbore 0 D) = 0
  /\ (forall W1 W2 : R,
        0 < W1 / 2 -> W1 < W2 -> W2 / 2 < Rbore ->
        Internal.sag (Internal.sag_locals Rbore W1 D)
        < Internal.sag (Internal.sag_locals Rbore W2 D))
  /\ (exists g : Internal.sag_t,
        Internal.m800_sag Rbore 0 D = Some g
        /\ Internal.sag g = 0
        /\ Internal.Dcorr g = D
        /\ Internal.X_new_start g = Rbore).
Proof.
  intros HR.
  assert (H0 : Internal.sag (Internal.sag_locals Rbore 0 D) = 0).
  { cbn [Internal.sag Internal.sag_locals]. unfold sqrtf.
    replace (Rbore * Rbore - 0 * 0.5 * (0 * 0.5)) with (Rbore * Rbore) by lra.
    rewrite sqrt_square; lra. }
  split; [exact H0|]. split.
  - intros W1 W2 H1 H12 H2. apply sag_strictly_increasing; lra.
  - exists (Internal.sag_locals Rbore 0 D).
    split; [apply m800_sag_some; lra|].
    split; [exact H0|].
    cbn [Internal.sag Internal.Dcorr Internal.X_new_start Internal.sag_locals] in *.
    split; lra.
Qed.

(** C9 for a bore of radius 5: widths 6 and 8. *)
Lemma C9_sag_monotone_witness :
  Internal.sag (Internal.sag_locals 5 6 2) < Internal.sag (Internal.sag_locals 5 8 2).
Proof.
  apply (C9_sag_monotone 5 2); lra.
Defined.

(** C3.  When half the tool width exceeds the bore radius, the cycle
    issues no motion command at all: after the start marker it reports the
    warning, writes the end marker and returns, leaving the target buffer
    as it found it. *)
Theorem C3_tool_wider_than_bore (M800_DEBUG : bool) (mach : machine_t)
    (prev : user_mcode_ptrs_t) (state : Z) (gc_block : parser_block_t)
    (st0 : locals_t) :
  user_mcode gc_block = M800_Internal ->
  v_s (values gc_block) / 2 > X_start_of mach ->
  moves (Internal.m800_trace M800_DEBUG mach prev state gc_block st0) = []
  /\ Internal.m800_trace M800_DEBUG mach prev state gc_block st0
     = [BufferSynchronize; StreamWrite msg_cycle_start]
       ++ (if M800_DEBUG
           then [DebugLog "M800 GEOMETRY"
                   [X_start_of mach; Z_start_of mach; - v_q (values gc_block);
                    v_s (values gc_block); gc_state_feed_rate mach]]
           else [])
       ++ [ReportMessage "M800: Slot width exceeds bore diameter.";
           StreamWrite msg_cycle_end]
  /\ locals_after (Internal.m800_execute M800_DEBUG mach prev state gc_block) st0 = st0.
Proof.
  intros Hm Hwide.
  assert (Hnone : Internal.m800_sag (X_start_of mach) (v_s (values gc_block))
                    (v_d (values gc_block)) = None)
    by (apply m800_sag_none; lra).
  unfold Internal.m800_trace, Internal.m800_execute.
  rewrite Hm. cbn [Z.eqb M800_Internal negb Pos.eqb].
  fold (X_start_of mach) (Z_start_of mach).
  rewrite Hnone.
  unfold Internal.M800_LOG, events_of, locals_after.
  destruct M800_DEBUG; repeat split; try reflexivity; destruct st0; reflexivity.
Qed.

(** C3 on scenario C: [S = 22] in a bore of radius 10. *)
Lemma C3_tool_wider_than_bore_witness :
  moves (Internal.m800_trace true machine_X10_Z10 no_prev 0 block_S22 locals0) = [].
Proof.
  apply (C3_tool_wider_than_bore true machine_X10_Z10 no_prev 0 block_S22 locals0).
  - reflexivity.
  - unfold X_start_of. simpl. lra.
Defined.

(* ======================================================================= *)
(** ** Ordering of motion, queue drain and end marker                      *)
(* ======================================================================= *)

Lemma end_after_drain_app (l1 l2 : list event) :
  Forall (fun e => is_cycle_end e = false) l1 ->
  end_after_drain l2 -> end_after_drain (l1 ++ l2).
Proof.
  intros H1 (pre & post & -> & Hpre & Hpost & Hin).
  exists (l1 ++ pre), post. rewrite <- app_assoc.
  repeat split; auto. apply Forall_app; auto.
Qed.

Lemma end_after_last_drain (st : locals_t) (post : list event) :
  Forall (fun e => is_motion e = false) post ->
  In (StreamWrite msg_cycle_end) post ->
  end_after_drain (events_of protocol_buffer_synchronize st ++ post).
Proof.
  intros Hpost Hin. exists [], post. repeat split; auto.
Qed.

Lemma for_loop_events_Forall (P : event -> Prop) (body : Z -> cycle unit) :
  (forall i st, Forall P (events_of (body i) st)) ->
  forall n i st, Forall P (events_of (for_loop n i body) st).
Proof.
  intros Hbody. induction n as [|n IH]; intros i st; simpl.
  - constructor.
  - rewrite events_bind. apply Forall_app. split; [apply Hbody | apply IH].
Qed.

Lemma internal_first_pass_no_end dbg xs zs Q Rz g0 g1 rep st :
  Forall (fun e => is_cycle_end e = false)
         (events_of (Internal.first_pass_rep dbg xs zs Q Rz g0 g1 rep) st).
Proof.
  unfold Internal.first_pass_rep, Internal.M800_LOG, events_of.
  destruct dbg; cbn; repeat constructor.
Qed.

Lemma internal_radial_pass_no_end dbg xs xf zs Q Rz P Lreps g0 g1 pass st :
  Forall (fun e => is_cycle_end e = false)
         (events_of (Internal.radial_pass dbg xs xf zs Q Rz P Lreps g0 g1 pass) st).
Proof.
  unfold Internal.radial_pass, for_lt.
  apply for_loop_events_Forall. intros rep st'.
  unfold Internal.radial_pass_rep, Internal.M800_LOG, events_of.
  destruct dbg; cbn; repeat constructor.
Qed.

Lemma legacy_pass_rep_no_end xs zs L Rz g0 g1 pass rep st :
  Forall (fun e => is_cycle_end e = false)
         (events_of (Legacy.pass_rep xs zs L Rz g0 g1 pass rep) st).
Proof.
  unfold Legacy.pass_rep, Legacy.log, events_of, bind, when, get_target, get_depth,
    set_X, set_Z, mc_line, emit, ret.
  destruct (Legacy.safe_differs (target st) xs (zs + Rz)); cbn;
    match goal with |- context [Legacy.backZ_differs ?t ?z] =>
      destruct (Legacy.backZ_differs t z) end; cbn; repeat constructor.
Qed.

Lemma legacy_pass_body_no_end xs zs L Rz P N g0 g1 pass st :
  Forall (fun e => is_cycle_end e = false)
         (events_of (Legacy.pass_body xs zs L Rz P N g0 g1 pass) st).
Proof.
  unfold Legacy.pass_body. rewrite !events_bind.
  repeat (apply Forall_app; split); try (cbn; constructor).
  unfold for_lt. apply for_loop_events_Forall. intros.
  apply legacy_pass_rep_no_end.
Qed.

(** C8.  In every M800 cycle, of either variant, the end marker is written
    only after a queue drain that follows every motion command of the
    cycle: the trace splits at a [protocol_buffer_synchronize] with no end
    marker before it, no motion command after it, and the end marker after
    it. *)
Theorem C8_end_after_drain (M800_DEBUG : bool) (mach : machine_t)
    (prev : user_mcode_ptrs_t) (state : Z) (gc_block : parser_block_t)
    (st0 : locals_t) :
  user_mcode gc_block = M800_Internal ->
  end_after_drain (Internal.m800_trace M800_DEBUG mach prev state gc_block st0)
  /\ end_after_drain (Legacy.m800_trace mach prev state gc_block st0).
Proof.
  intros Hm. split.
  - unfold Internal.m800_trace, Internal.m800_execute.
    rewrite Hm. cbn [Z.eqb M800_Internal negb Pos.eqb].
    destruct (Internal.m800_sag _ _ _) as [g|].
    + repeat rewrite events_bind.
      repeat first
        [ solve [ apply end_after_last_drain;
                  [ cbn; repeat constructor | cbn; auto ] ]
        | apply end_after_drain_app;
          [ first [ apply for_loop_events_Forall; intros;
                    first [ apply internal_first_pass_no_end
                          | apply internal_radial_pass_no_end ]
                  | unfold Internal.M800_LOG, events_of;
                    destruct M800_DEBUG;
                    try destruct (feq (v_h (values gc_block)) 1);
                    cbn; repeat constructor ] | ] ].
    + unfold Internal.M800_LOG, events_of. exists [].
      destruct M800_DEBUG; cbn; eexists; (split; [reflexivity|]);
        (split; [constructor|]); (split; [repeat constructor | simpl; auto 6]).
  - unfold Legacy.m800_trace, Legacy.m800_execute.
    rewrite Hm. cbn [Z.eqb M800_Internal negb Pos.eqb].
    repeat rewrite events_bind.
    repeat first
      [ solve [ apply end_after_last_drain;
                [ cbn; repeat constructor | cbn; auto ] ]
      | apply end_after_drain_app;
        [ first [ apply for_loop_events_Forall; intros;
                  apply legacy_pass_body_no_end
                | unfold Legacy.log, events_of;
                  try destruct (feq (v_h (values gc_block)) 0);
                  cbn; repeat constructor ] | ] ].
Qed.

(** C8 on [M800 D2 Q10 S6 P1 R2] (internal variant) and on
    [M800 D2 L10 P0.5 R2 F1000 H1] (legacy variant) at X5 Z10. *)
Lemma C8_end_after_drain_witness :
  end_after_drain
    (Internal.m800_trace true machine_X5_Z10 no_prev 0 block_D2_Q10_S6_P1_R2 locals0)
  /\ end_after_drain
       (Legacy.m800_trace machine_X5_Z10 no_prev 0
          legacy_block_D2_L10_P05_R2_F1000 locals0).
Proof.
  split.
  - apply (C8_end_after_drain true machine_X5_Z10 no_prev 0
             block_D2_Q10_S6_P1_R2 locals0).
    reflexivity.
  - apply (C8_end_after_drain true machine_X5_Z10 no_prev 0
             legacy_block_D2_L10_P05_R2_F1000 locals0).
    reflexivity.
Defined.

(* ======================================================================= *)
(** ** The legacy variant: waypoint sequence and elision of rapids         *)
(* ======================================================================= *)

Lemma legacy_moves (mach : machine_t) (prev : user_mcode_ptrs_t) (state : Z)
    (gc_block : parser_block_t) (st0 : locals_t) :
  user_mcode gc_block = M800_Internal ->
  moves (Legacy.m800_trace mach prev state gc_block st0)
  = legacy_radial_moves mach gc_block
    ++ legacy_final_plunge mach gc_block :: legacy_return mach gc_block.
Proof.
  intros Hm.
  unfold Legacy.m800_trace, Legacy.m800_execute.
  rewrite Hm. cbn [Z.eqb M800_Internal negb Pos.eqb].
  fold (X_start_of mach) (Z_start_of mach).
  repeat (rewrite events_bind, moves_app).
  unfold legacy_radial_moves, legacy_final_plunge, legacy_return, legacy_passes,
    legacy_N, plan_rapid, plan_feed, legacy_start_locals.
  unfold Legacy.log.
  destruct (feq (v_h (values gc_block)) 0); reflexivity.
Qed.

Lemma safe_differs_at_safe (x z : R) :
  Legacy.safe_differs {| X_AXIS := x; Z_AXIS := z |} x z = false.
Proof.
  unfold Legacy.safe_differs, fabsf. cbn [X_AXIS Z_AXIS].
  rewrite !Rminus_diag, Rabs_R0.
  rewrite (proj2 (fgt_false 0 0.0001)) by lra. reflexivity.
Qed.

(** One stroke of the legacy variant when the slot end and the retract
    plane are more than the tolerance apart. *)
Lemma legacy_pass_rep_run (xs zs L Rz : R) (g0 g1 : plan_line_data_t)
    (pass rep : Z) (st : locals_t) :
  Legacy.backZ_differs {| X_AXIS := xs; Z_AXIS := zs + L |} (zs + Rz) = true ->
  moves (events_of (Legacy.pass_rep xs zs L Rz g0 g1 pass rep) st)
  = legacy_safe (target st) xs (zs + Rz) g0
    ++ legacy_cut xs (zs + Rz) (zs + L) (current_depth st) g0 g1
  /\ locals_after (Legacy.pass_rep xs zs L Rz g0 g1 pass rep) st
     = {| target := {| X_AXIS := xs; Z_AXIS := zs + Rz |};
          current_depth := current_depth st |}.
Proof.
  intros Hbz.
  unfold Legacy.pass_rep, Legacy.log, events_of, locals_after, bind, when,
    get_target, get_depth, set_X, set_Z, mc_line, emit, ret, legacy_safe.
  destruct (Legacy.safe_differs (target st) xs (zs + Rz)); cbn;
    rewrite Hbz; cbn; split; reflexivity.
Qed.

Lemma legacy_rep_loop_run (xs zs L Rz : R) (g0 g1 : plan_line_data_t) (pass : Z) :
  Legacy.backZ_differs {| X_AXIS := xs; Z_AXIS := zs + L |} (zs + Rz) = true ->
  forall (n : nat) (i : Z) (st : locals_t),
    moves (events_of (for_loop (S n) i (Legacy.pass_rep xs zs L Rz g0 g1 pass)) st)
    = legacy_safe (target st) xs (zs + Rz) g0
      ++ flat_map (fun _ => legacy_cut xs (zs + Rz) (zs + L) (current_depth st) g0 g1)
                  (Zseq i (S n))
    /\ locals_after (for_loop (S n) i (Legacy.pass_rep xs zs L Rz g0 g1 pass)) st
       = {| target := {| X_AXIS := xs; Z_AXIS := zs + Rz |};
            current_depth := current_depth st |}.
Proof.
  intros Hbz. induction n as [|n IH]; intros i st.
  - cbn [for_loop]. rewrite events_bind, locals_bind, moves_app.
    destruct (legacy_pass_rep_run xs zs L Rz g0 g1 pass i st Hbz) as [-> ->].
    cbn. rewrite !app_nil_r. split; reflexivity.
  - change (for_loop (S (S n)) i (Legacy.pass_rep xs zs L Rz g0 g1 pass))
      with (Legacy.pass_rep xs zs L Rz g0 g1 pass i ;;
            for_loop (S n) (i + 1)%Z (Legacy.pass_rep xs zs L Rz g0 g1 pass)).
    rewrite events_bind, locals_bind, moves_app.
    destruct (legacy_pass_rep_run xs zs L Rz g0 g1 pass i st Hbz) as [-> ->].
    destruct (IH (i + 1)%Z
                 {| target := {| X_AXIS := xs; Z_AXIS := zs + Rz |};
                    current_depth := current_depth st |}) as [-> ->].
    cbn [target current_depth]. unfold legacy_safe at 2.
    rewrite safe_differs_at_safe. cbn [app].
    rewrite <- app_assoc. split; reflexivity.
Qed.

Lemma legacy_pass_body_run (xs zs L Rz P : R) (N : Z) (g0 g1 : plan_line_data_t)
    (pass : Z) (st : locals_t) :
  Legacy.backZ_differs {| X_AXIS := xs; Z_AXIS := zs + L |} (zs + Rz) = true ->
  (1 <= N)%Z ->
  moves (events_of (Legacy.pass_body xs zs L Rz P N g0 g1 pass) st)
  = legacy_safe (target st) xs (zs + Rz) g0
    ++ flat_map (fun _ => legacy_cut xs (zs + Rz) (zs + L) (current_depth st + P) g0 g1)
                (Zseq 0 (Z.to_nat N))
  /\ locals_after (Legacy.pass_body xs zs L Rz P N g0 g1 pass) st
     = {| target := {| X_AXIS := xs; Z_AXIS := zs + Rz |};
          current_depth := current_depth st + P |}.
Proof.
  intros Hbz HN. unfold Legacy.pass_body, for_lt.
  rewrite !events_bind, !locals_bind, !moves_app.
  replace (Z.to_nat (N - 0)) with (S (Z.to_nat (N - 1))) by lia.
  replace (Z.to_nat N) with (S (Z.to_nat (N - 1))) by lia.
  destruct (legacy_rep_loop_run xs zs L Rz g0 g1 pass Hbz (Z.to_nat (N - 1)) 0
              (locals_after (set_depth (fst (fst (get_depth st)) + P))
                 (locals_after get_depth st))) as [-> ->].
  split; reflexivity.
Qed.

Lemma legacy_pass_loop_run (xs zs L Rz P : R) (N : Z) (g0 g1 : plan_line_data_t) :
  Legacy.backZ_differs {| X_AXIS := xs; Z_AXIS := zs + L |} (zs + Rz) = true ->
  (1 <= N)%Z ->
  forall (n : nat) (i : Z) (st : locals_t),
    moves (events_of (for_loop (S n) i (Legacy.pass_body xs zs L Rz P N g0 g1)) st)
    = legacy_safe (target st) xs (zs + Rz) g0
      ++ flat_map
           (fun pass =>
              flat_map (fun _ => legacy_cut xs (zs + Rz) (zs + L)
                                   (current_depth st + IZR (pass - i + 1) * P) g0 g1)
                       (Zseq 0 (Z.to_nat N)))
           (Zseq i (S n)).
Proof.
  intros Hbz HN. induction n as [|n IH]; intros i st.
  - cbn [for_loop]. rewrite events_bind, moves_app.
    destruct (legacy_pass_body_run xs zs L Rz P N g0 g1 i st Hbz HN) as [-> _].
    cbn [events_of ret snd moves filter Zseq flat_map]. rewrite !app_nil_r.
    do 2 f_equal. replace (i - i + 1)%Z with 1%Z by lia.
    replace (current_depth st + 1 * P) with (current_depth st + P) by lra.
    reflexivity.
  - change (for_loop (S (S n)) i (Legacy.pass_body xs zs L Rz P N g0 g1))
      with (Legacy.pass_body xs zs L Rz P N g0 g1 i ;;
            for_loop (S n) (i + 1)%Z (Legacy.pass_body xs zs L Rz P N g0 g1)).
    rewrite events_bind, moves_app.
    destruct (legacy_pass_body_run xs zs L Rz P N g0 g1 i st Hbz HN) as [-> ->].
    rewrite IH. cbn [target current_depth]. unfold legacy_safe at 2.
    rewrite safe_differs_at_safe. cbn [app].
    rewrite <- app_assoc. f_equal.
    change (Zseq i (S (S n))) with (i :: Zseq (i + 1) (S n)).
    cbn [flat_map]. f_equal.
    + replace (i - i + 1)%Z with 1%Z by lia.
      replace (current_depth st + 1 * P) with (current_depth st + P) by lra.
      reflexivity.
    + apply flat_map_ext. intros pass.
      replace (current_depth st + P + IZR (pass - (i + 1) + 1) * P)
        with (current_depth st + IZR (pass - i + 1) * P); [reflexivity|].
      replace (pass - i + 1)%Z with ((pass - (i + 1) + 1) + 1)%Z by lia.
      rewrite (plus_IZR (pass - (i + 1) + 1) 1). lra.
Qed.

(** What a block accepted by the legacy validator satisfies. *)
Lemma legacy_validate_ok_inv (prev : user_mcode_ptrs_t) (gc_block : parser_block_t) :
  user_mcode gc_block = M800_Internal ->
  status_of (Legacy.m800_validate prev gc_block) = Status_OK ->
  0 < v_d (values gc_block)
  /\ (1 <= v_l (values gc_block))%Z
  /\ 0 < v_p (values gc_block)
  /\ 0 < v_r (values gc_block)
  /\ 0 < v_f (values gc_block)
  /\ v_p (values gc_block) <= v_d (values gc_block)
  /\ (1 <= legacy_N gc_block)%Z.
Proof.
  intros Hm. unfold Legacy.m800_validate, Legacy.reject, legacy_N. rewrite Hm.
  cbn [Z.eqb M800_Internal negb Pos.eqb].
  destruct (fle (v_d (values gc_block)) 0) eqn:Ed; [discriminate|].
  destruct (fle (IZR (v_l (values gc_block))) 0) eqn:El; [discriminate|].
  destruct (fle (v_p (values gc_block)) 0) eqn:Ep; [discriminate|].
  destruct (fle (v_r (values gc_block)) 0) eqn:Er; [discriminate|].
  destruct (fle (v_f (values gc_block)) 0) eqn:Ef; [discriminate|].
  destruct (fgt (v_p (values gc_block)) (v_d (values gc_block))) eqn:Epd;
    [discriminate|].
  destruct (w_n (words gc_block) && (v_n (values gc_block) <? 1)%Z) eqn:En;
    [discriminate|].
  intros _.
  apply fle_false in Ed, El, Ep, Er, Ef. apply fgt_false in Epd.
  repeat split; try lra.
  - apply lt_IZR in El. lia.
  - destruct (w_n (words gc_block)); [|lia].
    cbn [andb] in En. apply Z.ltb_ge in En. exact En.
Qed.

(** The legacy pass count is the floor of [D / P + 0.0001]. *)
Lemma legacy_passes_floor (gc_block : parser_block_t) :
  0 < v_p (values gc_block) ->
  v_p (values gc_block) <= v_d (values gc_block) ->
  IZR (legacy_passes gc_block)
    <= v_d (values gc_block) / v_p (values gc_block) + 0.0001
    < IZR (legacy_passes gc_block) + 1
  /\ (1 <= legacy_passes gc_block)%Z.
Proof.
  intros Hp Hpd. unfold legacy_passes, Legacy.passes_of, fabsf.
  set (D := v_d (values gc_block)) in *. set (P := v_p (values gc_block)) in *.
  replace (- D / - P) with (D / P) by (field; lra).
  assert (Hq : 1 <= D / P).
  { apply Rmult_le_reg_r with (r := P); [lra|].
    replace (D / P * P) with D by (field; lra). lra. }
  rewrite Rabs_pos_eq by lra.
  unfold int_of_float. destruct (Rle_dec 0 (D / P + 0.0001)); [|lra].
  destruct (base_Int_part (D / P + 0.0001)) as [H1 H2].
  split; [lra|].
  assert (H3 : 0 < IZR (Int_part (D / P + 0.0001))) by lra.
  apply lt_IZR in H3. lia.
Qed.

(** The complete waypoint sequence of an accepted legacy cycle: the first
    SAFE move (unless the buffer happens to be there already), the strokes
    of every pass without further SAFE moves, the final plunge and the
    optional return. *)
Lemma legacy_moves_closed (mach : machine_t) (prev : user_mcode_ptrs_t) (state : Z)
    (gc_block : parser_block_t) (st0 : locals_t) :
  user_mcode gc_block = M800_Internal ->
  status_of (Legacy.m800_validate prev gc_block) = Status_OK ->
  moves (Legacy.m800_trace mach prev state gc_block st0)
  = legacy_safe (target (legacy_start_locals mach)) (X_start_of mach)
                (Z_start_of mach + v_r (values gc_block)) plan_rapid
    ++ legacy_levels mach gc_block
    ++ legacy_final_plunge mach gc_block :: legacy_return mach gc_block.
Proof.
  intros Hm Hok.
  destruct (legacy_validate_ok_inv prev gc_block Hm Hok)
    as (Hd & Hl & Hp & Hr & Hf & Hpd & HN).
  destruct (legacy_passes_floor gc_block Hp Hpd) as [_ Hpasses].
  rewrite (legacy_moves mach prev state gc_block st0 Hm), app_assoc. f_equal.
  unfold legacy_radial_moves, for_lt.
  replace (Z.to_nat (legacy_passes gc_block - 0))
    with (S (Z.to_nat (legacy_passes gc_block - 1))) by lia.
  rewrite legacy_pass_loop_run; [| | exact HN].
  - f_equal. unfold legacy_levels.
    replace (Z.to_nat (legacy_passes gc_block))
      with (S (Z.to_nat (legacy_passes gc_block - 1))) by lia.
    apply flat_map_ext. intros pass. apply flat_map_ext. intros _.
    rewrite Z.sub_0_r. cbn [current_depth legacy_start_locals].
    rewrite Rplus_0_l. reflexivity.
  - unfold Legacy.backZ_differs, fabsf. cbn [Z_AXIS]. apply fgt_true.
    assert (1 <= IZR (v_l (values gc_block))) by now apply IZR_le.
    unfold Rabs. destruct (Rcase_abs _); lra.
Qed.











(* ======================================================================= *)
(** ** Final plunge and elision of repeated waypoints                      *)
(* ======================================================================= *)

Lemma internal_moves_prefix (M800_DEBUG : bool) (mach : machine_t)
    (prev : user_mcode_ptrs_t) (state : Z) (gc_block : parser_block_t)
    (st0 : locals_t) :
  user_mcode gc_block = M800_Internal ->
  v_s (values gc_block) * 0.5 <= X_start_of mach ->
  let g := Internal.sag_locals (X_start_of mach) (v_s (values gc_block))
                               (v_d (values gc_block)) in
  moves (Internal.m800_trace M800_DEBUG mach prev state gc_block st0)
  = internal_prefix mach gc_block g
    ++ [McLine (fst (return_target mach gc_block g))
               (snd (return_target mach gc_block g)) plan_rapid].
Proof.
  intros Hm Hfit g.
  rewrite (internal_moves M800_DEBUG mach prev state gc_block st0 g Hm
             (m800_sag_some _ _ _ Hfit)).
  unfold internal_prefix. cbn [app]. rewrite <- app_assoc. reflexivity.
Qed.









(* ======================================================================= *)
(** ** Validation: acceptance and the order of the checks                  *)
(* ======================================================================= *)




(* ======================================================================= *)
(** ** The final return and the H word                                     *)
(* ======================================================================= *)

Lemma sag_X5_S6_D2_values :
  Internal.X_new_start sag_X5_S6_D2 = 4
  /\ Internal.Dcorr sag_X5_S6_D2 = 3
  /\ Internal.X_final sag_X5_S6_D2 = 7.
Proof.
  assert (Hs : sqrt (X_start_of machine_X5_Z10 * X_start_of machine_X5_Z10
                     - 6 * 0.5 * (6 * 0.5)) = 4).
  { replace (X_start_of machine_X5_Z10 * X_start_of machine_X5_Z10
             - 6 * 0.5 * (6 * 0.5)) with (4 * 4)
      by (unfold X_start_of; simpl; lra).
    apply sqrt_square. lra. }
  unfold sag_X5_S6_D2.
  cbn [Internal.X_new_start Internal.Dcorr Internal.X_final Internal.sag_locals].
  unfold sqrtf. rewrite Hs. unfold X_start_of. simpl. lra.
Qed.

(** C7, on the failing input [M800 D2 Q10 S6 P1 R2] at X5 Z10, a command
    without H word: the block is accepted, and the final return goes to
    [(X_new_start, Z_start + R) = (4, 12)], not to the captured start
    [(5, 10)] that the documented default H1 asks for. *)
Theorem C7_absent_H_does_not_return :
  w_h (words block_D2_Q10_S6_P1_R2) = false
  /\ status_of (Internal.m800_validate machine_X5_Z10 no_prev block_D2_Q10_S6_P1_R2)
     = Status_OK
  /\ X_start_of machine_X5_Z10 = 5
  /\ Z_start_of machine_X5_Z10 = 10
  /\ last (moves (Internal.m800_trace true machine_X5_Z10 no_prev 0
                    block_D2_Q10_S6_P1_R2 locals0)) BufferSynchronize
     = McLine 4 12 plan_rapid
  /\ last (moves (Internal.m800_trace true machine_X5_Z10 no_prev 0
                    (block_of (Internal.m800_validate machine_X5_Z10 no_prev
                                 block_D2_Q10_S6_P1_R2)) locals0))
          BufferSynchronize
     = McLine 4 12 plan_rapid.
Proof.
  split; [reflexivity|].
  split; [exact block_D2_accepted|].
  split; [unfold X_start_of; simpl; lra|].
  split; [unfold Z_start_of; simpl; lra|].
  destruct sag_X5_S6_D2_values as (Hxs & _ & _).
  assert (Hret : forall b : parser_block_t,
             values b = values block_D2_Q10_S6_P1_R2 ->
             user_mcode b = M800_Internal ->
             last (moves (Internal.m800_trace true machine_X5_Z10 no_prev 0 b locals0))
                  BufferSynchronize
             = McLine 4 12 plan_rapid).
  { intros b Hv Hm.
    rewrite (internal_moves_prefix true machine_X5_Z10 no_prev 0 b locals0 Hm)
      by (rewrite Hv; unfold X_start_of; simpl; lra).
    rewrite last_last. unfold return_target. rewrite Hv.
    cbn [values block_D2_Q10_S6_P1_R2 v_h v_r v_s v_d].
    fold sag_X5_S6_D2. rewrite Hxs.
    fcmp. cbn [fst snd]. f_equal. unfold Z_start_of. simpl. lra. }
  split; [apply Hret; reflexivity|].
  apply Hret.
  - unfold Internal.m800_validate, block_D2_Q10_S6_P1_R2, machine_X5_Z10.
    cbn [user_mcode values words v_d v_q v_s v_p v_r v_l v_h w_l w_h
         gc_state_feed_rate Z.eqb M800_Internal negb Pos.eqb andb].
    fcmp. reflexivity.
  - unfold Internal.m800_validate, block_D2_Q10_S6_P1_R2, machine_X5_Z10.
    cbn [user_mcode values words v_d v_q v_s v_p v_r v_l v_h w_l w_h
         gc_state_feed_rate Z.eqb M800_Internal negb Pos.eqb andb].
    fcmp. reflexivity.
Qed.


(* ======================================================================= *)
(** ** Two complete runs, and the H word in the legacy variant             *)
(* ======================================================================= *)

(** [M800 D2 Q10 S6 P1 R2] at X5 Z10, internal variant: sag 1, start shifted
    to X4, corrected depth 3, three passes to X5, X6, X7; without H word
    the cycle ends at (4, 12). *)
Example internal_run_D2_Q10_S6_P1_R2 :
  moves (Internal.m800_trace true machine_X5_Z10 no_prev 0
           block_D2_Q10_S6_P1_R2 locals0)
  = McLine 4 12 plan_rapid
    :: stroke 4 4 12 0 plan_rapid (plan_feed 1000)
    ++ stroke 4 5 12 0 plan_rapid (plan_feed 1000)
    ++ stroke 4 6 12 0 plan_rapid (plan_feed 1000)
    ++ stroke 4 7 12 0 plan_rapid (plan_feed 1000)
    ++ [McLine 4 12 plan_rapid].
Proof.
  rewrite (internal_moves_prefix true machine_X5_Z10 no_prev 0
             block_D2_Q10_S6_P1_R2 locals0);
    [| reflexivity | unfold X_start_of; simpl; lra].
  destruct sag_X5_S6_D2_values as (Hxs & HD & Hxf).
  unfold internal_prefix, radial_levels, return_target, Lreps_of.
  cbn [values words block_D2_Q10_S6_P1_R2 words_DQSPR v_d v_s v_p v_q v_r v_h v_l
       w_l gc_state_feed_rate machine_X5_Z10].
  fold machine_X5_Z10. fold sag_X5_S6_D2. rewrite Hxs, HD, Hxf.
  assert (Hz : Z_start_of machine_X5_Z10 = 10) by (unfold Z_start_of; simpl; lra).
  rewrite Hz.
  replace (10 + 2) with 12 by lra. replace (10 + - (10)) with 0 by lra.
  assert (Hp : Internal.passes_of 3 1 = 3%Z)
    by (apply int_ceilf_unique; lra).
  rewrite Hp.
  assert (H1 : Internal.X_target_of 4 7 1 1 = 5)
    by (rewrite X_target_of_Rmin; unfold Rmin; destruct (Rle_dec _ _); lra).
  assert (H2 : Internal.X_target_of 4 7 1 2 = 6)
    by (rewrite X_target_of_Rmin; unfold Rmin; destruct (Rle_dec _ _); lra).
  assert (H3 : Internal.X_target_of 4 7 1 3 = 7)
    by (rewrite X_target_of_Rmin; unfold Rmin; destruct (Rle_dec _ _); lra).
  fcmp. unfold level.
  change (Zseq 1 (Z.to_nat 3)) with [1; 2; 3]%Z.
  change (Zseq 0 (Z.to_nat 1)) with [0%Z].
  cbn [flat_map fst snd].
  rewrite H1, H2, H3, !app_nil_r. reflexivity.
Qed.

(** [M800 D2 L10 P0.5 R2 F1000 H1] at X5 Z10, legacy variant: four passes
    toward -X; only the first stroke has a SAFE move, the later ones find
    the buffer at the safe position; final plunge to X3, return to the
    start. *)
Example legacy_run_D2_L10_P05_R2_F1000 :
  moves (Legacy.m800_trace machine_X5_Z10 no_prev 0
           legacy_block_D2_L10_P05_R2_F1000 locals0)
  = McLine 5 12 plan_rapid
    :: legacy_cut 5 12 0 (-0.5) plan_rapid (plan_feed 1000)
    ++ legacy_cut 5 12 0 (-1) plan_rapid (plan_feed 1000)
    ++ legacy_cut 5 12 0 (-1.5) plan_rapid (plan_feed 1000)
    ++ legacy_cut 5 12 0 (-2) plan_rapid (plan_feed 1000)
    ++ [McLine 3 12 (plan_feed 1000); McLine 5 10 plan_rapid].
Proof.
  rewrite (legacy_moves_closed machine_X5_Z10 no_prev 0
             legacy_block_D2_L10_P05_R2_F1000 locals0 eq_refl
             legacy_block_D2_accepted).
  assert (Hx : X_start_of machine_X5_Z10 = 5) by (unfold X_start_of; simpl; lra).
  assert (Hz : Z_start_of machine_X5_Z10 = 10) by (unfold Z_start_of; simpl; lra).
  assert (Hp : legacy_passes legacy_block_D2_L10_P05_R2_F1000 = 4%Z).
  { destruct (legacy_passes_floor legacy_block_D2_L10_P05_R2_F1000)
      as [[H1 H2] _]; [simpl; lra | simpl; lra |].
    cbn [values legacy_block_D2_L10_P05_R2_F1000 v_d v_p] in H1, H2.
    assert (H3 : IZR 3 < IZR (legacy_passes legacy_block_D2_L10_P05_R2_F1000)) by lra.
    assert (H4 : IZR (legacy_passes legacy_block_D2_L10_P05_R2_F1000) < IZR 5) by lra.
    apply lt_IZR in H3, H4. lia. }
  unfold legacy_safe, legacy_levels, legacy_final_plunge, legacy_return, legacy_N.
  rewrite Hp, Hx, Hz.
  cbn [values words legacy_block_D2_L10_P05_R2_F1000 v_d v_l v_p v_r v_f v_h w_n
       target legacy_start_locals memcpy_position_X memcpy_position_Z machine_X5_Z10].
  assert (Hs : Legacy.safe_differs {| X_AXIS := 0; Z_AXIS := 0 |} 5 (10 + 2) = true).
  { unfold Legacy.safe_differs, fabsf. cbn [X_AXIS Z_AXIS].
    apply orb_true_iff. left. apply fgt_true.
    unfold Rabs. destruct (Rcase_abs _); lra. }
  rewrite Hs. fcmp.
  change (Zseq 0 (Z.to_nat 4)) with [0; 1; 2; 3]%Z.
  change (Zseq 0 (Z.to_nat 1)) with [0%Z].
  cbn [flat_map app]. rewrite !app_nil_r.
  replace (10 + 2) with 12 by lra. replace (10 + - (10)) with 0 by lra.
  replace (5 - 2) with 3 by lra.
  replace (IZR (0 + 1) * - (0.5)) with (-0.5) by (simpl; lra).
  replace (IZR (1 + 1) * - (0.5)) with (-1) by (simpl; lra).
  replace (IZR (2 + 1) * - (0.5)) with (-1.5) by (simpl; lra).
  replace (IZR (3 + 1) * - (0.5)) with (-2) by (simpl; lra).
  reflexivity.
Qed.

(** The legacy variant has the same reading of the H word: it returns to
    the start unless the value of H is 0, which is also what an absent H
    leaves in the block.  [M800 D2 L10 P0.5 R2 F1000] ends with the final
    plunge. *)
Example legacy_absent_H_does_not_return :
  status_of (Legacy.m800_validate no_prev legacy_block_no_H) = Status_OK
  /\ last (moves (Legacy.m800_trace machine_X5_Z10 no_prev 0 legacy_block_no_H locals0))
          BufferSynchronize
     = legacy_final_plunge machine_X5_Z10 legacy_block_no_H.
Proof.
  split.
  - unfold Legacy.m800_validate, legacy_block_no_H.
    cbn [user_mcode values words v_d v_l v_p v_r v_f v_n v_h w_n w_h
         Z.eqb M800_Internal negb Pos.eqb andb].
    fcmp. reflexivity.
  - rewrite (legacy_moves machine_X5_Z10 no_prev 0 legacy_block_no_H locals0 eq_refl).
    unfold legacy_return. cbn [values legacy_block_no_H v_h]. fcmp.
    apply last_last.
Qed.

(* ======================================================================= *)
(** ** Further properties: sag geometry and depth stepping                 *)
(* ======================================================================= *)

(** X1.  For a tool of non-negative width that fits the bore, the centre
    distance closes the right triangle with the half width
    ([d_center^2 + halfC^2 = R^2]), the sag lies between 0 and the half
    width, the shifted start is the centre distance, and shift and depth
    correction cancel: the final target is [X_start + D] whatever the tool
    width. *)
Theorem X1_sag_triangle (Rbore W D : R) :
  0 <= W -> W * 0.5 <= Rbore ->
  let g := Internal.sag_locals Rbore W D in
  Internal.d_center g * Internal.d_center g + Internal.halfC g * Internal.halfC g
    = Rbore * Rbore
  /\ 0 <= Internal.sag g <= Internal.halfC g
  /\ Internal.X_new_start g = Internal.d_center g
  /\ Internal.X_final g = Rbore + D.
Proof.
  intros HW Hfit g.
  assert (Hh : 0 <= W * 0.5 <= Rbore) by lra.
  pose proof (d_center_bounds Rbore W D Hh) as Hd. fold g in Hd.
  assert (Hsq : Internal.d_center g * Internal.d_center g
                = Rbore * Rbore - W * 0.5 * (W * 0.5)).
  { unfold g. cbn [Internal.d_center Internal.sag_locals]. unfold sqrtf.
    apply sqrt_sqrt. nra. }
  assert (Hc : Internal.halfC g = W * 0.5) by reflexivity.
  assert (Hs : Internal.sag g = Rbore - Internal.d_center g) by reflexivity.
  assert (Hx : Internal.X_new_start g = Rbore - Internal.sag g) by reflexivity.
  split; [rewrite Hsq, Hc; lra|].
  split; [rewrite Hs, Hc; split; [lra | nra]|].
  split; [lra | apply X_final_eq].
Qed.

(** X1 for a tool of width 6 in a bore of radius 5. *)
Lemma X1_sag_triangle_witness :
  Internal.X_final (Internal.sag_locals 5 6 2) = 5 + 2.
Proof.
  apply (X1_sag_triangle 5 6 2); lra.
Defined.



(* ======================================================================= *)
(** ** Further properties: the handler chain and the validated block       *)
(* ======================================================================= *)

(** X3.  Installing either variant leaves every other M-code as it was
    handled before: for a code other than 800 the installed [check],
    [validate] and [execute] answer exactly as the previous handler set
    does (a missing previous handler giving unsupported, unhandled and no
    action), while code 800 is now reported as supported. *)
Theorem X3_other_mcodes_pass_through (M800_DEBUG : bool) (mach : machine_t)
    (prev : user_mcode_ptrs_t) (state : Z) (gc_block : parser_block_t)
    (st : locals_t) :
  user_mcode gc_block <> M800_Internal ->
  let hi := Internal.keyway_init M800_DEBUG mach prev in
  let hl := Legacy.my_plugin_init mach prev in
  (dispatch_check hi (user_mcode gc_block) = dispatch_check prev (user_mcode gc_block)
   /\ dispatch_validate hi gc_block = dispatch_validate prev gc_block
   /\ dispatch_execute hi state gc_block st = dispatch_execute prev state gc_block st)
  /\ (dispatch_check hl (user_mcode gc_block) = dispatch_check prev (user_mcode gc_block)
      /\ dispatch_validate hl gc_block = dispatch_validate prev gc_block
      /\ dispatch_execute hl state gc_block st = dispatch_execute prev state gc_block st)
  /\ dispatch_check hi M800_Internal = UserMCode_NoValueWords
  /\ dispatch_check hl M800_Internal = UserMCode_NoValueWords.
Proof.
  intros Hm hi hl. apply Z.eqb_neq in Hm.
  unfold hi, hl, dispatch_check, dispatch_validate, dispatch_execute,
    Internal.keyway_init, Legacy.my_plugin_init.
  cbn [prev_check prev_validate prev_execute].
  unfold Internal.m800_check, Internal.m800_validate, Internal.m800_execute,
    Legacy.m800_check, Legacy.m800_validate, Legacy.m800_execute.
  rewrite Hm. cbn [negb].
  repeat split; reflexivity.
Qed.

(** X3 on a block of M123 with no handler installed before. *)
Lemma X3_other_mcodes_pass_through_witness :
  dispatch_validate (Internal.keyway_init true machine_X5_Z10 no_prev) block_M123
  = (Status_Unhandled, block_M123, []).
Proof.
  apply (X3_other_mcodes_pass_through true machine_X5_Z10 no_prev 0 block_M123 locals0).
  discriminate.
Defined.











(* ======================================================================= *)
(** ** Further properties: debug lines and uninitialised memory            *)
(* ======================================================================= *)

Lemma for_loop_filter (p : event -> bool) (body : Z -> cycle unit)
    (blk : Z -> list event) :
  (forall i st, filter p (events_of (body i) st) = blk i) ->
  forall n i st,
    filter p (events_of (for_loop n i body) st) = flat_map blk (Zseq i n).
Proof.
  intros Hbody. induction n as [|n IH]; intros i st; simpl.
  - reflexivity.
  - rewrite events_bind, filter_app, Hbody, IH. reflexivity.
Qed.

Lemma filter_all (l : list event) : filter (fun _ => true) l = l.
Proof. induction l as [|e l IH]; simpl; [reflexivity | now rewrite IH]. Qed.

Lemma radial_pass_stripped (M800_DEBUG : bool) (xs xf zs Q Rz P : R) (Lreps : Z)
    (g0 g1 : plan_line_data_t) (pass : Z) (st : locals_t) :
  strip_debug (events_of
                 (Internal.radial_pass M800_DEBUG xs xf zs Q Rz P Lreps g0 g1 pass) st)
  = level Lreps xs (Internal.X_target_of xs xf P pass) (zs + Rz) (zs + Q) g0 g1.
Proof.
  unfold Internal.radial_pass, for_lt, level, strip_debug.
  rewrite (for_loop_filter _ _
             (fun _ => stroke xs (Internal.X_target_of xs xf P pass)
                              (zs + Rz) (zs + Q) g0 g1)).
  - rewrite Z.sub_0_r. reflexivity.
  - intros i st'. unfold Internal.radial_pass_rep, Internal.M800_LOG, events_of.
    destruct M800_DEBUG; reflexivity.
Qed.

(** The trace without its debug lines, for a tool that fits the bore. *)
Lemma internal_trace_stripped (M800_DEBUG : bool) (mach : machine_t)
    (prev : user_mcode_ptrs_t) (state : Z) (gc_block : parser_block_t)
    (st0 : locals_t) :
  user_mcode gc_block = M800_Internal ->
  v_s (values gc_block) * 0.5 <= X_start_of mach ->
  let g := Internal.sag_locals (X_start_of mach) (v_s (values gc_block))
                               (v_d (values gc_block)) in
  strip_debug (Internal.m800_trace M800_DEBUG mach prev state gc_block st0)
  = BufferSynchronize :: StreamWrite msg_cycle_start
    :: (internal_prefix mach gc_block g
        ++ [McLine (fst (return_target mach gc_block g))
                   (snd (return_target mach gc_block g)) plan_rapid])
    ++ [BufferSynchronize; StreamWrite msg_cycle_end].
Proof.
  intros Hm Hfit g.
  unfold Internal.m800_trace, Internal.m800_execute.
  rewrite Hm. cbn [Z.eqb M800_Internal negb Pos.eqb].
  fold (X_start_of mach) (Z_start_of mach).
  rewrite (m800_sag_some _ _ (v_d (values gc_block)) Hfit). fold g.
  unfold strip_debug.
  repeat (rewrite events_bind, filter_app).
  unfold for_lt, for_le.
  rewrite (for_loop_filter _ _
             (fun _ => stroke (Internal.X_new_start g) (Internal.X_new_start g)
                         (Z_start_of mach + v_r (values gc_block))
                         (Z_start_of mach + - v_q (values gc_block))
                         plan_rapid (plan_feed (gc_state_feed_rate mach))))
    by (intros i st'; unfold Internal.first_pass_rep, Internal.M800_LOG, events_of;
        destruct M800_DEBUG; reflexivity).
  rewrite (for_loop_filter _ _ _ (radial_pass_stripped _ _ _ _ _ _ _ _ _ _)).
  unfold internal_prefix, return_target, radial_levels, level, Lreps_of,
    plan_rapid, plan_feed.
  rewrite !Z.sub_0_r.
  replace (Internal.passes_of (Internal.Dcorr g) (v_p (values gc_block)) + 1 - 1)%Z
    with (Internal.passes_of (Internal.Dcorr g) (v_p (values gc_block))) by lia.
  unfold Internal.M800_LOG, events_of.
  destruct M800_DEBUG, (feq (v_h (values gc_block)) 1); cbn [app];
    rewrite <- ?app_assoc; reflexivity.
Qed.

Lemma internal_trace_no_debug (mach : machine_t) (prev : user_mcode_ptrs_t)
    (state : Z) (gc_block : parser_block_t) (st0 : locals_t) :
  user_mcode gc_block = M800_Internal ->
  Forall (fun e => is_debug e = false)
         (Internal.m800_trace false mach prev state gc_block st0).
Proof.
  intros Hm. unfold Internal.m800_trace, Internal.m800_execute.
  rewrite Hm. cbn [Z.eqb M800_Internal negb Pos.eqb].
  destruct (Internal.m800_sag _ _ _) as [g|].
  - repeat rewrite events_bind.
    repeat (apply Forall_app; split);
      first [ solve [ apply for_loop_events_Forall; intros;
                      unfold Internal.first_pass_rep, Internal.M800_LOG, events_of;
                      cbn; repeat constructor ]
            | solve [ apply for_loop_events_Forall; intros;
                      unfold Internal.radial_pass, for_lt;
                      apply for_loop_events_Forall; intros;
                      unfold Internal.radial_pass_rep, Internal.M800_LOG, events_of;
                      cbn; repeat constructor ]
            | solve [ unfold Internal.M800_LOG, events_of;
                      try destruct (feq (v_h (values gc_block)) 1);
                      cbn; repeat constructor ] ].
  - unfold Internal.M800_LOG, events_of. cbn. repeat constructor.
Qed.

Lemma strip_debug_id (tr : list event) :
  Forall (fun e => is_debug e = false) tr -> strip_debug tr = tr.
Proof.
  unfold strip_debug. induction 1 as [|e tr He _ IH]; simpl; [reflexivity|].
  rewrite He. simpl. now rewrite IH.
Qed.

Lemma moves_strip_debug (tr : list event) : moves (strip_debug tr) = moves tr.
Proof.
  unfold moves, strip_debug. induction tr as [|e tr IH]; simpl; [reflexivity|].
  destruct e; simpl; rewrite ?IH; reflexivity.
Qed.

Lemma internal_trace_stripped_abort (M800_DEBUG : bool) (mach : machine_t)
    (prev : user_mcode_ptrs_t) (state : Z) (gc_block : parser_block_t)
    (st0 : locals_t) :
  user_mcode gc_block = M800_Internal ->
  v_s (values gc_block) * 0.5 > X_start_of mach ->
  strip_debug (Internal.m800_trace M800_DEBUG mach prev state gc_block st0)
  = [BufferSynchronize; StreamWrite msg_cycle_start;
     ReportMessage "M800: Slot width exceeds bore diameter.";
     StreamWrite msg_cycle_end].
Proof.
  intros Hm Hwide.
  unfold Internal.m800_trace, Internal.m800_execute.
  rewrite Hm. cbn [Z.eqb M800_Internal negb Pos.eqb].
  fold (X_start_of mach) (Z_start_of mach).
  rewrite (m800_sag_none _ _ (v_d (values gc_block)) Hwide).
  unfold Internal.M800_LOG, events_of. destruct M800_DEBUG; reflexivity.
Qed.

(** X6.  The debug switch only adds debug lines: removing them from the
    trace of a cycle gives the trace of the same cycle run with
    [M800_DEBUG = 0], and the waypoints are the same.  With the switch off
    the trace is: queue drain, start marker, the motion commands, queue
    drain, end marker (when the tool fits the bore), or: queue drain, start
    marker, warning, end marker (when it does not). *)
Theorem X6_debug_switch (M800_DEBUG : bool) (mach : machine_t)
    (prev : user_mcode_ptrs_t) (state : Z) (gc_block : parser_block_t)
    (st0 : locals_t) :
  user_mcode gc_block = M800_Internal ->
  let quiet := Internal.m800_trace false mach prev state gc_block st0 in
  let tr := Internal.m800_trace M800_DEBUG mach prev state gc_block st0 in
  strip_debug tr = quiet
  /\ moves tr = moves quiet
  /\ (v_s (values gc_block) * 0.5 <= X_start_of mach ->
      quiet = BufferSynchronize :: StreamWrite msg_cycle_start
              :: moves quiet ++ [BufferSynchronize; StreamWrite msg_cycle_end])
  /\ (v_s (values gc_block) * 0.5 > X_start_of mach ->
      quiet = [BufferSynchronize; StreamWrite msg_cycle_start;
               ReportMessage "M800: Slot width exceeds bore diameter.";
               StreamWrite msg_cycle_end]).
Proof.
  intros Hm quiet tr.
  assert (Hq : strip_debug quiet = quiet)
    by (apply strip_debug_id, internal_trace_no_debug; exact Hm).
  assert (Hs : strip_debug tr = quiet).
  { rewrite <- Hq. unfold tr, quiet.
    destruct (Rle_dec (v_s (values gc_block) * 0.5) (X_start_of mach)) as [Hfit|Hwide].
    - rewrite !internal_trace_stripped by assumption. reflexivity.
    - rewrite !internal_trace_stripped_abort by (assumption || lra). reflexivity. }
  split; [exact Hs|].
  split; [rewrite <- (moves_strip_debug tr), Hs; reflexivity|].
  split.
  - intros Hfit. rewrite <- Hq at 1. unfold quiet.
    rewrite internal_trace_stripped by assumption.
    rewrite (internal_moves_prefix false mach prev state gc_block st0 Hm Hfit).
    reflexivity.
  - intros Hwide. rewrite <- Hq. unfold quiet.
    apply internal_trace_stripped_abort; assumption.
Qed.

(** X6 on [M800 D2 Q10 S6 P1 R2] at X5 Z10. *)
Lemma X6_debug_switch_witness :
  strip_debug (Internal.m800_trace true machine_X5_Z10 no_prev 0
                 block_D2_Q10_S6_P1_R2 locals0)
  = Internal.m800_trace false machine_X5_Z10 no_prev 0 block_D2_Q10_S6_P1_R2 locals0.
Proof.
  apply (X6_debug_switch true machine_X5_Z10 no_prev 0 block_D2_Q10_S6_P1_R2 locals0).
  reflexivity.
Defined.




(* ======================================================================= *)
(** ** Further properties: the shape of the tool path                      *)
(* ======================================================================= *)






(** X9.  Profiles of the motion commands of an accepted cycle of the
    internal variant whose tool fits the bore: every feed move runs at the
    active feed rate, which is positive, and every rapid move goes to the
    shifted start [X_new_start] in X or, for the final return, to the
    captured start. *)
Theorem X9_feed_and_rapid_moves (M800_DEBUG : bool) (mach : machine_t)
    (prev : user_mcode_ptrs_t) (state : Z) (gc_block : parser_block_t)
    (st0 : locals_t) :
  user_mcode gc_block = M800_Internal ->
  status_of (Internal.m800_validate mach prev gc_block) = Status_OK ->
  v_s (values gc_block) * 0.5 <= X_start_of mach ->
  let g := Internal.sag_locals (X_start_of mach) (v_s (values gc_block))
                               (v_d (values gc_block)) in
  all_moves
    (fun x z pl =>
       (rapid_motion pl = false
        /\ feed_rate pl = gc_state_feed_rate mach /\ 0 < feed_rate pl)
       \/ (rapid_motion pl = true
           /\ (x = Internal.X_new_start g
               \/ (x = X_start_of mach /\ z = Z_start_of mach))))
    (Internal.m800_trace M800_DEBUG mach prev state gc_block st0).
Proof.
  intros Hm Hok Hfit g.
  apply validate_ok_iff in Hok; [|exact Hm]. destruct Hok.
  apply all_moves_moves.
  rewrite (internal_moves M800_DEBUG mach prev state gc_block st0 g Hm
             (m800_sag_some _ _ _ Hfit)).
  set (Q := fun (x z : R) (pl : plan_line_data_t) =>
              (rapid_motion pl = false
               /\ feed_rate pl = gc_state_feed_rate mach /\ 0 < feed_rate pl)
              \/ (rapid_motion pl = true
                  /\ (x = Internal.X_new_start g
                      \/ (x = X_start_of mach /\ z = Z_start_of mach)))).
  assert (Hr : forall z, Q (Internal.X_new_start g) z plan_rapid)
    by (intros z; right; split; [reflexivity | left; reflexivity]).
  assert (Hf : forall x z, Q x z (plan_feed (gc_state_feed_rate mach)))
    by (intros x z; left; cbn; auto).
  unfold all_moves. constructor; [apply Hr|].
  apply Forall_app. split; [apply (all_moves_level Q); auto|].
  apply Forall_app. split.
  - unfold radial_levels. apply Forall_flat_map, Forall_forall. intros pass _.
    apply (all_moves_level Q); auto.
  - constructor; [|constructor]. unfold return_target.
    destruct (feq (v_h (values gc_block)) 1); cbn [fst snd]; [|apply Hr].
    right. split; [reflexivity | right; split; reflexivity].
Qed.

(** X9 on [M800 D2 Q10 S6 P1 R2] at X5 Z10. *)
Lemma X9_feed_and_rapid_moves_witness :
  all_moves
    (fun x z pl =>
       (rapid_motion pl = false /\ feed_rate pl = 1000 /\ 0 < feed_rate pl)
       \/ (rapid_motion pl = true
           /\ (x = Internal.X_new_start sag_X5_S6_D2
               \/ (x = X_start_of machine_X5_Z10 /\ z = Z_start_of machine_X5_Z10))))
    (Internal.m800_trace true machine_X5_Z10 no_prev 0 block_D2_Q10_S6_P1_R2 locals0).
Proof.
  apply (X9_feed_and_rapid_moves true machine_X5_Z10 no_prev 0
           block_D2_Q10_S6_P1_R2 locals0).
  - reflexivity.
  - exact block_D2_accepted.
  - unfold X_start_of. simpl. lra.
Defined.

(* ======================================================================= *)
(** ** Further properties: the legacy variant                              *)
(* ======================================================================= *)











(** X13.  Where a legacy cycle leaves the tool.  The last motion command
    is the final plunge to [(X_start - D, Z_start + R)], at full depth,
    when the H value of the block is 0, and the rapid return to the
    captured start for every other H value. *)
Theorem X13_legacy_end_position (mach : machine_t) (prev : user_mcode_ptrs_t)
    (state : Z) (gc_block : parser_block_t) (st0 : locals_t) :
  user_mcode gc_block = M800_Internal ->
  let tr := Legacy.m800_trace mach prev state gc_block st0 in
  (v_h (values gc_block) = 0 ->
   last (moves tr) BufferSynchronize
   = McLine (X_start_of mach - v_d (values gc_block))
            (Z_start_of mach + v_r (values gc_block))
            (plan_feed (v_f (values gc_block))))
  /\ (v_h (values gc_block) <> 0 ->
      last (moves tr) BufferSynchronize
      = McLine (X_start_of mach) (Z_start_of mach) plan_rapid).
Proof.
  intros Hm tr. unfold tr.
  rewrite (legacy_moves mach prev state gc_block st0 Hm).
  unfold legacy_return, legacy_final_plunge. split; intros Hh.
  - rewrite (proj2 (feq_true _ _) Hh). apply last_last.
  - rewrite (proj2 (feq_false _ _) Hh).
    change (legacy_radial_moves mach gc_block
            ++ McLine (X_start_of mach - v_d (values gc_block))
                      (Z_start_of mach + v_r (values gc_block))
                      (plan_feed (v_f (values gc_block)))
               :: [McLine (X_start_of mach) (Z_start_of mach) plan_rapid])
      with (legacy_radial_moves mach gc_block
            ++ [McLine (X_start_of mach - v_d (values gc_block))
                       (Z_start_of mach + v_r (values gc_block))
                       (plan_feed (v_f (values gc_block)))]
            ++ [McLine (X_start_of mach) (Z_start_of mach) plan_rapid]).
    rewrite app_assoc. apply last_last.
Qed.

(** X13 on [M800 D2 L10 P0.5 R2 F1000] without H word, and with H1. *)
Lemma X13_legacy_end_position_witness :
  last (moves (Legacy.m800_trace machine_X5_Z10 no_prev 0 legacy_block_no_H locals0))
       BufferSynchronize
  = McLine (X_start_of machine_X5_Z10 - 2) (Z_start_of machine_X5_Z10 + 2)
           (plan_feed 1000)
  /\ last (moves (Legacy.m800_trace machine_X5_Z10 no_prev 0
                    legacy_block_D2_L10_P05_R2_F1000 locals0))
          BufferSynchronize
     = McLine (X_start_of machine_X5_Z10) (Z_start_of machine_X5_Z10) plan_rapid.
Proof.
  split.
  - apply (X13_legacy_end_position machine_X5_Z10 no_prev 0 legacy_block_no_H locals0);
      reflexivity.
  - apply (X13_legacy_end_position machine_X5_Z10 no_prev 0
             legacy_block_D2_L10_P05_R2_F1000 locals0); [reflexivity|].
    simpl. lra.
Defined.


